(** * TMU Schedule Exporter: a shallow embedding of [src/index.ts]

    The development follows the layout of the source file: first the parts
    of the JavaScript runtime the program calls (strings of UTF-16 code
    units, IEEE-754 binary64 numbers, [Number], [String], [split], [trim],
    [padStart], ...), then the constants, the domain types and one module per
    class of the program, and finally the theorems about them. *)

From Stdlib Require Import ZArith NArith List Bool Lia Ascii String.
From Stdlib Require Import SpecFloat DecimalN.
From stdpp Require Import base numbers option list gmap.

Local Open Scope N_scope.

(** ** ECMAScript strings

    A JavaScript string is a finite sequence of 16-bit code units. *)

Abbreviation code_unit := N (only parsing).
Abbreviation jsstring := (list N) (only parsing).

(** An ASCII literal of the source, as code units. *)
Fixpoint lit (s : string) : jsstring :=
  match s with
  | EmptyString => []
  | String c s' => N_of_ascii c :: lit s'
  end.

Module JS.

(** *** Comparison *)

(** [s === t] on strings: same sequence of code units. *)
Definition str_eqb (s t : jsstring) : bool := bool_decide (s = t).

(** [s < t] on strings: the lexicographic order of the code units, a proper
    prefix being smaller. *)
Fixpoint str_ltb (s t : jsstring) : bool :=
  match s, t with
  | _, [] => false
  | [], _ :: _ => true
  | a :: s', b :: t' => (a <? b) || ((a =? b) && str_ltb s' t')
  end.

(** *** White space ([WhiteSpace] and [LineTerminator] of the standard) *)

Definition isLineTerminator (c : code_unit) : bool :=
  (c =? 0x0A) || (c =? 0x0D) || (c =? 0x2028) || (c =? 0x2029).

Definition isWhiteSpace (c : code_unit) : bool :=
  (c =? 0x09) || (c =? 0x0B) || (c =? 0x0C) || (c =? 0x20) || (c =? 0xA0)
  || (c =? 0x1680) || ((0x2000 <=? c) && (c <=? 0x200A))
  || (c =? 0x202F) || (c =? 0x205F) || (c =? 0x3000) || (c =? 0xFEFF).

Definition isStrWhiteSpaceChar (c : code_unit) : bool :=
  isWhiteSpace c || isLineTerminator c.

Fixpoint trimStart (s : jsstring) : jsstring :=
  match s with
  | c :: s' => if isStrWhiteSpaceChar c then trimStart s' else s
  | [] => []
  end.

Definition trimEnd (s : jsstring) : jsstring := rev (trimStart (rev s)).

(** [String.prototype.trim] *)
Definition trim (s : jsstring) : jsstring := trimEnd (trimStart s).

(** *** Searching and splitting *)

Fixpoint startsWith (p s : jsstring) : bool :=
  match p, s with
  | [], _ => true
  | _ :: _, [] => false
  | a :: p', b :: s' => (a =? b) && startsWith p' s'
  end.

(** [String.prototype.includes] *)
Fixpoint includes (s p : jsstring) : bool :=
  startsWith p s ||
  match s with
  | [] => false
  | _ :: s' => includes s' p
  end.

(** The scan of [String.prototype.split] for a non-empty separator:
    [skip] counts the code units of a separator occurrence still to be
    passed over, [cur] is the current segment, reversed. *)
Fixpoint split_scan (sep : jsstring) (skip : nat) (cur s : jsstring)
  : list jsstring :=
  match s with
  | [] => [rev cur]
  | c :: s' =>
      match skip with
      | S k => split_scan sep k cur s'
      | O =>
          if startsWith sep s
          then rev cur :: split_scan sep (length sep - 1) [] s'
          else split_scan sep 0 (c :: cur) s'
      end
  end.

(** [String.prototype.split] with a string separator and no limit. *)
Definition split (s sep : jsstring) : list jsstring :=
  match sep with
  | [] => List.map (fun c => [c]) s
  | _ :: _ => split_scan sep 0 [] s
  end.

(** [String.prototype.padStart] *)
Fixpoint fill_cycle (fuel : nat) (fill cur : jsstring) : jsstring :=
  match fuel with
  | O => []
  | S k =>
      match cur with
      | [] => match fill with
              | [] => []
              | c :: cur' => c :: fill_cycle k fill cur'
              end
      | c :: cur' => c :: fill_cycle k fill cur'
      end
  end.

Definition padStart (s : jsstring) (targetLength : nat) (fill : jsstring)
  : jsstring :=
  fill_cycle (targetLength - length s) fill fill ++ s.

(** [s.replace(/c/g, rep)] for a pattern that is one literal character and
    a replacement without [$] patterns. *)
Definition replace_all (c : code_unit) (rep : jsstring) (s : jsstring)
  : jsstring :=
  flat_map (fun x => if x =? c then rep else [x]) s.

(** [Array.prototype.join] *)
Fixpoint join (l : list jsstring) (sep : jsstring) : jsstring :=
  match l with
  | [] => []
  | [s] => s
  | s :: l' => s ++ sep ++ join l' sep
  end.

(** *** The regular expression [/\((.*?)\)/]

    [dot_star_lazy_rparen s] matches [(.*?)\)] at the start of [s]: the
    shortest run of characters other than line terminators that is
    followed by a closing parenthesis.  It gives the captured group. *)
Fixpoint dot_star_lazy_rparen (s : jsstring) : option jsstring :=
  match s with
  | [] => None
  | c :: s' =>
      if c =? 0x29 then Some []
      else if isLineTerminator c then None
      else option_map (cons c) (dot_star_lazy_rparen s')
  end.

(** [s.match(/\((.*?)\)/)?.[1]]: the group of the leftmost match. *)
Fixpoint match_paren_group (s : jsstring) : option jsstring :=
  match s with
  | [] => None
  | c :: s' =>
      if c =? 0x28 then
        match dot_star_lazy_rparen s' with
        | Some g => Some g
        | None => match_paren_group s'
        end
      else match_paren_group s'
  end.

(** ** ECMAScript numbers

    A Number is an IEEE-754 binary64 value.  [spec_float] is the
    specification of such values by sign, mantissa and exponent; all
    operations below are exact integer computations followed by one
    rounding to nearest, ties to even. *)

Definition prec : Z := 53.
Definition emax : Z := 1024.

Definition NaN : spec_float := S754_nan.

(** The Number value of an integer (numeric literals of the source). *)
Definition of_Z (z : Z) : spec_float := binary_normalize prec emax z 0 false.

(** The Number value of [m * 10^e], with the sign [neg], for [0 <= m]. *)
Definition round_decimal (neg : bool) (m e : Z) : spec_float :=
  match m with
  | Z0 => S754_zero neg
  | Zneg _ => S754_nan
  | Zpos p =>
      match e with
      | Zneg k =>
          let '(q, e', l) :=
            SFdiv_core_binary prec emax (Zpos p) 0 (Z.pow_pos 10 k) 0 in
          binary_round_aux prec emax neg q e' l
      | _ => binary_round prec emax neg (Z.to_pos (Zpos p * 10 ^ e)) 0
      end
  end.

(** [x === y] on numbers: [NaN] differs from everything, the two zeros are
    equal. *)
Definition strict_eq (x y : spec_float) : bool := SFeqb x y.

(** [ToBoolean] of a number: the zeros and [NaN] are falsy. *)
Definition truthy (x : spec_float) : bool :=
  match x with
  | S754_zero _ | S754_nan => false
  | _ => true
  end.

(** *** [Number(string)]: the grammar [StringNumericLiteral] *)

Definition in_range (lo hi c : N) : bool := (lo <=? c) && (c <=? hi).

Definition digit_value (radix : N) (c : code_unit) : option N :=
  let v :=
    if in_range 0x30 0x39 c then Some (c - 0x30)
    else if in_range 0x61 0x66 c then Some (c - 0x61 + 10)
    else if in_range 0x41 0x46 c then Some (c - 0x41 + 10)
    else None in
  match v with
  | Some d => if d <? radix then Some d else None
  | None => None
  end.

(** The longest prefix of digits: its value added to [acc], the number of
    digits read added to [n], and the rest of the string. *)
Fixpoint digits (radix acc : N) (n : nat) (s : jsstring)
  : N * nat * jsstring :=
  match s with
  | c :: s' =>
      match digit_value radix c with
      | Some d => digits radix (acc * radix + d) (S n) s'
      | None => (acc, n, s)
      end
  | [] => (acc, n, [])
  end.

(** [ExponentPart], optional, up to the end of the string. *)
Definition exponent_part (s : jsstring) : option Z :=
  match s with
  | [] => Some 0%Z
  | c :: s1 =>
      if (c =? 0x65) || (c =? 0x45) then
        let '(neg, s2) :=
          match s1 with
          | 0x2B :: s2 => (false, s2)
          | 0x2D :: s2 => (true, s2)
          | _ => (false, s1)
          end in
        match digits 10 0 0 s2 with
        | (v, S _, []) => Some (if neg then (- Z.of_N v)%Z else Z.of_N v)
        | _ => None
        end
      else None
  end.

(** [StrUnsignedDecimalLiteral] *)
Definition unsigned_decimal (neg : bool) (s : jsstring) : spec_float :=
  if str_eqb s (lit "Infinity") then S754_infinity neg else
  let '(ip, ni, r1) := digits 10 0 0 s in
  let '(m, nf, r2) :=
    match r1 with
    | 0x2E :: r => digits 10 ip 0 r
    | _ => (ip, 0%nat, r1)
    end in
  if (ni + nf =? 0)%nat then NaN else
  match exponent_part r2 with
  | Some e => round_decimal neg (Z.of_N m) (e - Z.of_nat nf)
  | None => NaN
  end.

(** [NonDecimalIntegerLiteral]: [0x], [0o] and [0b] literals. *)
Definition non_decimal (s : jsstring) : option spec_float :=
  match s with
  | 0x30 :: p :: r =>
      let radix :=
        if (p =? 0x78) || (p =? 0x58) then Some 16
        else if (p =? 0x6F) || (p =? 0x4F) then Some 8
        else if (p =? 0x62) || (p =? 0x42) then Some 2
        else None in
      match radix with
      | Some rd =>
          match digits rd 0 0 r with
          | (v, S _, []) => Some (of_Z (Z.of_N v))
          | _ => Some NaN
          end
      | None => None
      end
  | _ => None
  end.

(** [Number(s)] for a string [s]. *)
Definition StringToNumber (s : jsstring) : spec_float :=
  let t := trim s in
  match t with
  | [] => S754_zero false
  | 0x2B :: r => unsigned_decimal false r
  | 0x2D :: r => unsigned_decimal true r
  | _ =>
      match non_decimal t with
      | Some v => v
      | None => unsigned_decimal false t
      end
  end.

(** *** [String(number)]: [Number::toString] in radix 10 *)

Fixpoint uint_codes (d : Decimal.uint) : jsstring :=
  match d with
  | Decimal.Nil => []
  | Decimal.D0 d => 0x30 :: uint_codes d
  | Decimal.D1 d => 0x31 :: uint_codes d
  | Decimal.D2 d => 0x32 :: uint_codes d
  | Decimal.D3 d => 0x33 :: uint_codes d
  | Decimal.D4 d => 0x34 :: uint_codes d
  | Decimal.D5 d => 0x35 :: uint_codes d
  | Decimal.D6 d => 0x36 :: uint_codes d
  | Decimal.D7 d => 0x37 :: uint_codes d
  | Decimal.D8 d => 0x38 :: uint_codes d
  | Decimal.D9 d => 0x39 :: uint_codes d
  end.

(** The decimal digits of a natural number. *)
Definition decimal_digits (n : N) : jsstring := uint_codes (N.to_uint n).

Definition ndigits (n : N) : Z := Z.of_nat (length (decimal_digits n)).

(** The [n] with [10^(n-1) <= m * 2^e < 10^n]. *)
Definition decade (m : positive) (e : Z) : Z :=
  let num := (Zpos m * 2 ^ Z.max e 0)%Z in
  let den := (2 ^ Z.max (- e) 0)%Z in
  let ip := (num / den)%Z in
  if (0 <? ip)%Z then ndigits (Z.to_N ip)
  else (1 - ndigits (Z.to_N ((den - 1) / num)))%Z.

(** The [k]-digit decimals next to [x = m * 2^e] that convert back to [x]:
    of those, the one nearest to [x], as [(s, n)] for [s * 10^(n-k)]. *)
Definition candidate (m : positive) (e n0 k : Z) : option (Z * Z) :=
  let x := S754_finite false m e in
  let sh := (k - n0)%Z in
  let num := (Zpos m * 2 ^ Z.max e 0 * 10 ^ Z.max sh 0)%Z in
  let den := (2 ^ Z.max (- e) 0 * 10 ^ Z.max (- sh) 0)%Z in
  let lo := (num / den)%Z in
  let r := (num mod den)%Z in
  let hi := (lo + 1)%Z in
  let ok s := SFeqb (round_decimal false s (n0 - k)) x in
  let norm s :=
    if (s =? 10 ^ k)%Z then ((10 ^ (k - 1))%Z, (n0 + 1)%Z) else (s, n0) in
  match ok lo, ok hi with
  | true, true =>
      Some (norm match (2 * r ?= den)%Z with
                 | Lt => lo
                 | Gt => hi
                 | Eq => if Z.even lo then lo else hi
                 end)
  | true, false => Some (norm lo)
  | false, true => Some (norm hi)
  | false, false => None
  end.

(** The least number of digits [k] with a candidate, tried from [k] on.
    Seventeen digits identify every binary64 value, so that [None] is not
    reached from [1] for a value in canonical form. *)
Fixpoint shortest (fuel : nat) (m : positive) (e n0 k : Z)
  : option (Z * Z * Z) :=
  match fuel with
  | O => None
  | S fuel' =>
      match candidate m e n0 k with
      | Some (s, n) => Some (s, n, k)
      | None => shortest fuel' m e n0 (k + 1)
      end
  end.

Definition zeros (n : Z) : jsstring := repeat 0x30 (Z.to_nat n).

(** The text of [s * 10^(n-k)], where [s] has [k] digits. *)
Definition format (s n k : Z) : jsstring :=
  let ds := decimal_digits (Z.to_N s) in
  if ((k <=? n) && (n <=? 21))%Z then ds ++ zeros (n - k)
  else if ((0 <? n) && (n <=? 21))%Z then
    take (Z.to_nat n) ds ++ lit "." ++ drop (Z.to_nat n) ds
  else if ((-6 <? n) && (n <=? 0))%Z then lit "0." ++ zeros (- n) ++ ds
  else
    let e := (n - 1)%Z in
    let es :=
      lit (if (e <? 0)%Z then "-" else "+")
      ++ decimal_digits (Z.to_N (Z.abs e)) in
    match ds with
    | [] => []
    | [d] => d :: lit "e" ++ es
    | d :: rest => d :: lit "." ++ rest ++ lit "e" ++ es
    end.

(** A sign, mantissa and exponent that are no binary64 value in canonical
    form have no digits here; they are shown as [NaN]. *)
Definition Number_toString (x : spec_float) : jsstring :=
  match x with
  | S754_nan => lit "NaN"
  | S754_zero _ => lit "0"
  | S754_infinity sg => lit (if sg then "-" else "") ++ lit "Infinity"
  | S754_finite sg m e =>
      match shortest 17 m e (decade m e) 1 with
      | Some (s, n, k) => lit (if sg then "-" else "") ++ format s n k
      | None => lit "NaN"
      end
  end.

(** [x <= y] on numbers. *)
Definition le (x y : spec_float) : bool := SFleb x y.

End JS.

(** ** Constants and domain types *)

Definition API_BASE : jsstring :=
  lit "https://tmuonlineapi.azurewebsites.net/api/student".

Record PeriodTime := {
  sh : spec_float;
  sm : spec_float;
  eh : spec_float;
  em : spec_float;
}.

Definition mkPeriod (a b c d : Z) : PeriodTime :=
  {| sh := JS.of_Z a; sm := JS.of_Z b; eh := JS.of_Z c; em := JS.of_Z d |}.

(** The entries of the object literal, with their numeric keys. *)
Definition PERIOD_TIME_literal : list (Z * PeriodTime) :=
  [ (1, mkPeriod 6 30 7 20);
    (2, mkPeriod 7 25 8 15);
    (3, mkPeriod 8 20 9 10);
    (4, mkPeriod 9 20 10 10);
    (5, mkPeriod 10 15 11 5);
    (6, mkPeriod 11 10 12 0);
    (7, mkPeriod 12 30 13 20);
    (8, mkPeriod 13 25 14 15);
    (9, mkPeriod 14 20 15 10);
    (10, mkPeriod 15 20 16 10);
    (11, mkPeriod 16 15 17 5);
    (12, mkPeriod 17 10 18 0) ]%Z.

(** Period index to start/end time mapping.  The keys of an object are
    strings: a numeric key of the literal names the property that is the
    text of the number. *)
Definition PERIOD_TIME : gmap (list N) PeriodTime :=
  list_to_map
    (List.map (fun kv => (JS.Number_toString (JS.of_Z kv.1), kv.2))
       PERIOD_TIME_literal).

(** [ToPropertyKey] of a value that is a number or [undefined].  Neither
    the text of a number nor ["undefined"] names a property of
    [Object.prototype], so that [PERIOD_TIME[v]] is the lookup of this key
    among the properties of the literal. *)
Definition ToPropertyKey (v : option spec_float) : jsstring :=
  match v with
  | Some x => JS.Number_toString x
  | None => lit "undefined"
  end.

(** [!v] for a value that is a number or [undefined]. *)
Definition not_number (v : option spec_float) : bool :=
  match v with
  | Some x => negb (JS.truthy x)
  | None => true
  end.

(** [!v] for a value that is a string or [null]. *)
Definition not_string (v : option jsstring) : bool :=
  match v with
  | Some (_ :: _) => false
  | Some [] | None => true
  end.

Record WeekScheduleItem := {
  TermID : spec_float;
  YearStudy : spec_float;
  Week : spec_float;
}.

Record TMUScheduleItem := {
  Date : jsstring;
  PeriodName : jsstring;
  RoomID : jsstring;
  CaHoc : jsstring;
  ScheduleStudyUnitID : jsstring;
  NumberOfPeriods : spec_float + jsstring;
  ProfessorName : jsstring;
  CurriculumName : jsstring;
}.

Record TMUDrawingSchedulesResponse := {
  ResultDataSchedule : option (list TMUScheduleItem);
}.

Record CalendarEvent := {
  uid : jsstring;
  title : jsstring;
  location : jsstring;
  description : jsstring;
  start : jsstring;
  end_ : jsstring;
}.

(** ** The host environment

    What the browser decides and the program only observes. *)

(** How one [fetch] ends: the promise rejects, or there is a response with
    its [ok] flag, its status and its body read as JSON. *)
Inductive json_body :=
| InvalidJson
| JsonNull
| JsonValue (data : TMUDrawingSchedulesResponse).

Inductive fetch_outcome :=
| NetworkError
| Response (ok : bool) (status : spec_float) (body : json_body).

Record Host := {
  (** [String.prototype.toLowerCase] on a string with a code unit outside
      ASCII (the Unicode case tables) *)
  toLowerCase_unicode : jsstring -> jsstring;
  (** [JSON.parse] of a [WeekSchedule] response body; [None] when it throws *)
  JSON_parse : jsstring -> option (option (list WeekScheduleItem));
  (** [globalThis.crypto && "randomUUID" in globalThis.crypto] *)
  hasRandomUUID : bool;
  (** the results of the successive calls *)
  randomUUID : nat -> jsstring;
  Date_now : nat -> spec_float;
  Math_random : nat -> spec_float;
  (** the outcome of the [n]-th [fetch], given its URL and headers *)
  fetch : nat -> jsstring -> gmap (list N) (list N) -> fetch_outcome;
  (** the order in which the pending fetches of one [Promise.all] settle,
      by their index in the array *)
  settle_order : list nat;
  (** whether the browser's file save goes through *)
  save_ok : jsstring -> jsstring -> jsstring -> bool;
}.

(** ** Effects

    A computation runs in a world (the counters of the calls made so far and
    the trace of what the page shows), and returns, throws, or stays pending
    for ever (an [await] on a promise that never settles). *)

Inductive exn :=
| Error (message : jsstring)
| TypeError
| SyntaxError.

Inductive effect :=
| Alert (message : jsstring)
| ConsoleLog (n : nat)
| ConsoleWarn (message : jsstring)
| ConsoleError (err : exn)
| SetTextContent (text : jsstring)
| SetDisabled (b : bool)
| SaveFile (filename mime content : jsstring).

Record World := {
  trace : list effect;
  uid_calls : nat;
  fetch_calls : nat;
}.

Definition World0 : World := {| trace := []; uid_calls := 0; fetch_calls := 0 |}.

Inductive outcome (A : Type) :=
| Return (a : A)
| Throw (e : exn)
| Pending.
Arguments Return {A} a.
Arguments Throw {A} e.
Arguments Pending {A}.

Definition Eff (A : Type) : Type := World -> outcome A * World.

Definition ret {A} (a : A) : Eff A := fun w => (Return a, w).

Definition bind {A B} (m : Eff A) (k : A -> Eff B) : Eff B :=
  fun w =>
    match m w with
    | (Return a, w') => k a w'
    | (Throw e, w') => (Throw e, w')
    | (Pending, w') => (Pending, w')
    end.

Notation "'let*' x ':=' m 'in' k" := (bind m (fun x => k))
  (at level 10, x pattern, m at level 200, k at level 200).

Definition throw {A} (e : exn) : Eff A := fun w => (Throw e, w).

Definition emit (e : effect) : Eff unit :=
  fun w => (Return tt, {| trace := trace w ++ [e]; uid_calls := uid_calls w;
                          fetch_calls := fetch_calls w |}).

(** [try { body } catch (err) { handler }] *)
Definition try_catch {A} (body : Eff A) (handler : exn -> Eff A) : Eff A :=
  fun w =>
    match body w with
    | (Throw e, w') => handler e w'
    | r => r
    end.

(** [try { body } finally { final }], for a [final] that completes
    normally or throws. *)
Definition try_finally {A} (body : Eff A) (final : Eff unit) : Eff A :=
  fun w =>
    match body w with
    | (Pending, w1) => (Pending, w1)
    | (r, w1) =>
        match final w1 with
        | (Return _, w2) => (r, w2)
        | (Throw e, w2) => (Throw e, w2)
        | (Pending, w2) => (Pending, w2)
        end
    end.

(** [Array.prototype.map] with a callback that has effects. *)
Fixpoint map_eff {A B} (f : A -> Eff B) (l : list A) : Eff (list B) :=
  match l with
  | [] => ret []
  | x :: l' => let* y := f x in let* ys := map_eff f l' in ret (y :: ys)
  end.

(** ** Small utilities *)

Module DateUtils.

Definition pad2 (n : spec_float) : jsstring :=
  JS.padStart (JS.Number_toString n) 2 (lit "0").

(** Convert date parts to compact ICS timestamp (no timezone suffix). *)
Definition toICSDate (y m d h min : spec_float) : jsstring :=
  JS.Number_toString y ++ pad2 m ++ pad2 d ++ lit "T"
  ++ pad2 h ++ pad2 min ++ lit "00".

End DateUtils.

Module IdFactory.

Definition uid (host : Host) (prefix : jsstring) : Eff jsstring :=
  fun w =>
    let n := uid_calls w in
    let uuid :=
      if hasRandomUUID host then randomUUID host n
      else JS.Number_toString (Date_now host n) ++ lit "-"
           ++ JS.Number_toString (Math_random host n) in
    (Return (prefix ++ lit "-" ++ uuid),
     {| trace := trace w; uid_calls := S n; fetch_calls := fetch_calls w |}).

End IdFactory.

(** ** Infrastructure: HTTP client *)

Module FetchHttpClient.

(** [getJson]: [None] is the JSON value [null]. *)
Definition getJson (host : Host) (url : jsstring)
    (headers : gmap (list N) (list N))
  : Eff (option TMUDrawingSchedulesResponse) :=
  fun w =>
    let n := fetch_calls w in
    let w' := {| trace := trace w; uid_calls := uid_calls w;
                 fetch_calls := S n |} in
    match fetch host n url headers with
    | NetworkError => (Throw TypeError, w')
    | Response ok status body =>
        if negb ok then
          (Throw (Error (lit "HTTP " ++ JS.Number_toString status
                         ++ lit " when GET " ++ url)), w')
        else
          match body with
          | InvalidJson => (Throw SyntaxError, w')
          | JsonNull => (Return None, w')
          | JsonValue data => (Return (Some data), w')
          end
    end.

End FetchHttpClient.

(** ** Infrastructure: Interceptor (captures apikey/authorization +
    WeekSchedule) *)

Module TMUInterceptorContext.

Record t := {
  apiKey : option jsstring;
  authorization : option jsstring;
  cachedWeeks : option (list WeekScheduleItem);
}.

Definition new : t :=
  {| apiKey := None; authorization := None; cachedWeeks := None |}.

Definition getAuthHeaders (self : t) : option (gmap (list N) (list N)) :=
  if not_string (apiKey self) || not_string (authorization self) then None
  else Some (<[lit "apikey" := default [] (apiKey self)]>
             (<[lit "authorization" := default [] (authorization self)]>
              (<[lit "clientid" := lit "tmu"]> ∅))).

Definition getWeeks (self : t) : option (list WeekScheduleItem) :=
  cachedWeeks self.

Definition ascii_lower (c : code_unit) : code_unit :=
  if JS.in_range 0x41 0x5A c then c + 0x20 else c.

(** [key.toLowerCase()] *)
Definition toLowerCase (host : Host) (s : jsstring) : jsstring :=
  if forallb (fun c => c <? 0x80) s then List.map ascii_lower s
  else toLowerCase_unicode host s.

(** The replacement of [XMLHttpRequest.prototype.setRequestHeader], up to
    its call of the original function. *)
Definition setRequestHeader (host : Host) (self : t) (key value : jsstring)
  : t :=
  let lower := toLowerCase host key in
  let self1 :=
    if not_string (apiKey self) && JS.str_eqb lower (lit "apikey")
    then {| apiKey := Some value; authorization := authorization self;
            cachedWeeks := cachedWeeks self |}
    else self in
  if not_string (authorization self1)
     && JS.str_eqb lower (lit "authorization")
  then {| apiKey := apiKey self1; authorization := Some value;
          cachedWeeks := cachedWeeks self1 |}
  else self1.

(** Whether the replacement of [send] adds its [load] listener, for a
    request opened on [url]. *)
Definition listens (url : jsstring) : bool :=
  JS.includes url (lit "/WeekSchedule").


(** The context after the page has set the given headers, in order. *)
Definition setRequestHeaders (host : Host) (self : t)
    (hs : list (jsstring * jsstring)) : t :=
  foldl (fun c h => setRequestHeader host c h.1 h.2) self hs.

End TMUInterceptorContext.

(** ** Application service: load schedules for current term *)

Module TMUScheduleService.

Definition unreserved (c : code_unit) : bool :=
  JS.in_range 0x41 0x5A c || JS.in_range 0x61 0x7A c
  || JS.in_range 0x30 0x39 c
  || bool_decide (c ∈ [0x2D; 0x5F; 0x2E; 0x21; 0x7E; 0x2A; 0x27; 0x28; 0x29]).

Definition hex_digit (d : N) : code_unit :=
  if d <? 10 then 0x30 + d else 0x41 + (d - 10).

(** [encodeURIComponent] on the characters of ASCII, all that
    [String(number)] is made of; a code unit beyond them, which would need
    the UTF-8 encoder, is left as it is. *)
Definition encodeURIComponent (s : jsstring) : jsstring :=
  flat_map (fun c =>
              if unreserved c || (0x80 <=? c) then [c]
              else [0x25; hex_digit (c / 16); hex_digit (c mod 16)]) s.

Definition scheduleUrl (week : WeekScheduleItem) : jsstring :=
  (API_BASE ++ lit "/DrawingSchedules")
  ++ (lit "?namhoc="
      ++ encodeURIComponent (JS.Number_toString (YearStudy week)))
  ++ (lit "&hocky="
      ++ encodeURIComponent (JS.Number_toString (TermID week)))
  ++ (lit "&tuan=" ++ encodeURIComponent (JS.Number_toString (Week week))).

(** The [async (week) => ...] of the source, from the call of [getJson]
    to its result: what the promise is fulfilled with. *)
Definition fetchWeek (host : Host) (headers : gmap (list N) (list N))
    (week : WeekScheduleItem) : Eff (list TMUScheduleItem) :=
  try_catch
    (let* data := FetchHttpClient.getJson host (scheduleUrl week) headers in
     match data with
     | Some data => ret (default [] (ResultDataSchedule data))
     | None => throw TypeError
     end)
    (fun _ => ret []).

(** [Promise.all] of promises that are fulfilled with [values], the one at
    index [i] when [i] comes up in [order]: each value is stored at its
    index, and the result is there once every index has come up. *)
Definition Promise_all {A} (values : list A) (order : list nat)
  : Eff (list A) :=
  fun w =>
    let slots :=
      foldl (fun slots i =>
               match values !! i with
               | Some v => <[i := Some v]> slots
               | None => slots
               end)
            (replicate (length values) None) order in
    match mapM id slots with
    | Some results => (Return results, w)
    | None => (Pending, w)
    end.

Definition weeksNotLoaded : jsstring :=
  lit "WeekSchedule ch" ++ [0x1B0] ++ lit "a " ++ [0x111] ++ [0x1B0]
  ++ [0x1EE3] ++ lit "c t" ++ [0x1EA3] ++ lit "i. H" ++ [0xE3] ++ lit "y m"
  ++ [0x1EDF] ++ lit " trang TKB r" ++ [0x1ED3] ++ lit "i refresh l"
  ++ [0x1EA1] ++ lit "i.".

Definition headersNotCaptured : jsstring :=
  lit "Ch" ++ [0x1B0] ++ lit "a b" ++ [0x1EAF] ++ lit "t " ++ [0x111]
  ++ [0x1B0] ++ [0x1EE3] ++ lit "c apikey/authorization. H" ++ [0xE3]
  ++ lit "y t" ++ [0x1EA3] ++ lit "i l" ++ [0x1EA1] ++ lit "i trang v"
  ++ [0xE0] ++ lit " m" ++ [0x1EDF] ++ lit " trang TKB tr" ++ [0x1B0]
  ++ [0x1EDB] ++ lit "c khi export.".

(** [weeks.filter((w) => w.TermID === currentTerm.TermID &&
    w.YearStudy === currentTerm.YearStudy)] *)
Definition termWeeks (weeks : list WeekScheduleItem)
    (currentTerm : WeekScheduleItem) : list WeekScheduleItem :=
  List.filter
    (fun w =>
       JS.strict_eq (TermID w) (TermID currentTerm)
       && JS.strict_eq (YearStudy w) (YearStudy currentTerm))
    weeks.

(** The calls of the [async] callback run, in the order of the array, up
    to their [fetch]; what each does after its [fetch] has settled touches
    nothing but its own promise, so it is computed here and handed to
    [Promise_all], which waits for the fetches in the host's order. *)
Definition loadCurrentTermSchedules (host : Host)
    (context : TMUInterceptorContext.t) : Eff (list TMUScheduleItem) :=
  match TMUInterceptorContext.getWeeks context with
  | None | Some [] => let* _ := emit (Alert weeksNotLoaded) in ret []
  | Some ((currentTerm :: _) as weeks) =>
      match TMUInterceptorContext.getAuthHeaders context with
      | None => let* _ := emit (Alert headersNotCaptured) in ret []
      | Some headers =>
          let* values :=
            map_eff (fetchWeek host headers) (termWeeks weeks currentTerm) in
          let* results := Promise_all values (settle_order host) in
          ret (concat results)
      end
  end.

End TMUScheduleService.

(** ** Mapper: raw schedule items -> calendar events *)

Module TMUScheduleToEventMapper.

(** TMU sometimes includes HTML breaks. Keep the first part as the
    location. *)
Definition cleanRoom (roomId : jsstring) : jsstring :=
  JS.trim (hd [] (JS.split roomId (lit "</br>"))).

(** A value known to be a number (after the guard on [!d || !m || !y]). *)
Definition the_number (v : option spec_float) : spec_float :=
  default JS.NaN v.

Definition describe (item : TMUScheduleItem) (startTime : jsstring)
  : jsstring :=
  (lit "LHP: " ++ ScheduleStudyUnitID item ++ [0x0A])
  ++ (lit "S" ++ [0x1ED1] ++ lit " ti" ++ [0x1EBF] ++ lit "t: "
      ++ match NumberOfPeriods item with
         | inl n => JS.Number_toString n
         | inr s => s
         end ++ [0x0A])
  ++ (lit "Ti" ++ [0x1EBF] ++ lit "t: " ++ PeriodName item ++ [0x0A])
  ++ (lit "Gi" ++ [0x1EDD] ++ lit " b" ++ [0x1EAF] ++ lit "t " ++ [0x111]
      ++ [0x1EA7] ++ lit "u: " ++ startTime ++ [0x0A])
  ++ (lit "GV: " ++ ProfessorName item).

Definition toEvent (host : Host) (item : TMUScheduleItem)
  : Eff (option CalendarEvent) :=
  let dmy := List.map JS.StringToNumber (JS.split (Date item) (lit "/")) in
  let d := dmy !! 0%nat in
  let m := dmy !! 1%nat in
  let y := dmy !! 2%nat in
  if not_number d || not_number m || not_number y then ret None else
  let periods :=
    List.map JS.StringToNumber (JS.split (PeriodName item) (lit "-")) in
  let sp := periods !! 0%nat in
  let ep := periods !! 1%nat in
  match PERIOD_TIME !! ToPropertyKey sp, PERIOD_TIME !! ToPropertyKey ep with
  | Some st, Some et =>
      let room := cleanRoom (RoomID item) in
      let startTime := default [] (JS.match_paren_group (CaHoc item)) in
      let* id := IdFactory.uid host (lit "tmu") in
      ret (Some
             {| uid := id;
                title := CurriculumName item ++ lit " - " ++ room;
                location := room;
                description := describe item startTime;
                start :=
                  DateUtils.toICSDate (the_number y) (the_number m)
                    (the_number d) (sh st) (sm st);
                end_ :=
                  DateUtils.toICSDate (the_number y) (the_number m)
                    (the_number d) (eh et) (em et) |})
  | _, _ => ret None
  end.

Definition map (host : Host) (items : list TMUScheduleItem)
  : Eff (list CalendarEvent) :=
  let* events := map_eff (toEvent host) items in
  ret (omap id events).

End TMUScheduleToEventMapper.

(** ** ICS serializer *)

Module IcsCalendarSerializer.

Definition TZID : jsstring := lit "Asia/Ho_Chi_Minh".

Definition line (s : jsstring) : jsstring := s ++ [0x0A].

(** ICS text escaping: backslash, comma, semicolon, newline. *)
Definition escapeText (input : jsstring) : jsstring :=
  JS.replace_all 0x3B [0x5C; 0x3B]
    (JS.replace_all 0x2C [0x5C; 0x2C]
       (JS.replace_all 0x0A [0x5C; 0x6E]
          (JS.replace_all 0x5C [0x5C; 0x5C] input))).

Definition serializeEvent (e : CalendarEvent) : jsstring :=
  let tz := TZID in
  let summary := escapeText (title e) in
  let location := escapeText (location e) in
  let description := escapeText (description e) in
  line (lit "BEGIN:VEVENT")
  ++ line (lit "UID:" ++ uid e)
  ++ line (lit "DTSTAMP:" ++ start e)
  ++ line (lit "DTSTART;TZID=" ++ tz ++ lit ":" ++ start e)
  ++ line (lit "DTEND;TZID=" ++ tz ++ lit ":" ++ end_ e)
  ++ line (lit "SUMMARY:" ++ summary)
  ++ line (lit "LOCATION:" ++ location)
  ++ line (lit "DESCRIPTION:" ++ description)
  ++ line (lit "END:VEVENT").

Definition header : jsstring :=
  line (lit "BEGIN:VCALENDAR")
  ++ line (lit "VERSION:2.0")
  ++ line (lit "CALSCALE:GREGORIAN")
  ++ line (lit "PRODID:-//TMU//Schedule Exporter//VN")
  ++ line (lit "BEGIN:VTIMEZONE")
  ++ line (lit "TZID:" ++ TZID)
  ++ line (lit "BEGIN:STANDARD")
  ++ line (lit "DTSTART:19700101T000000")
  ++ line (lit "TZOFFSETFROM:+0700")
  ++ line (lit "TZOFFSETTO:+0700")
  ++ line (lit "TZNAME:ICT")
  ++ line (lit "END:STANDARD")
  ++ line (lit "END:VTIMEZONE").

Definition serialize (events : list CalendarEvent) : jsstring :=
  let body := JS.join (List.map serializeEvent events) [] in
  header ++ body ++ lit "END:VCALENDAR".

End IcsCalendarSerializer.

(** ** File downloader *)

Module BrowserFileDownloader.

Definition downloadTextFile (host : Host) (filename mime content : jsstring)
  : Eff unit :=
  if save_ok host filename mime content
  then emit (SaveFile filename mime content)
  else throw TypeError.

End BrowserFileDownloader.

(** ** UI + orchestration *)

Module TMUExporterApp.

Definition working : jsstring := [0x231B] ++ lit "...".

Definition nothingToExport : jsstring :=
  lit "Kh" ++ [0xF4] ++ lit "ng c" ++ [0xF3] ++ lit " d" ++ [0x1EEF]
  ++ lit " li" ++ [0x1EC7] ++ lit "u " ++ [0x111] ++ [0x1EC3] ++ lit " xu"
  ++ [0x1EA5] ++ lit "t (0 events).".

Definition exportFailed : jsstring :=
  lit "Xu" ++ [0x1EA5] ++ lit "t l" ++ [0x1ECB] ++ lit "ch th" ++ [0x1EA5]
  ++ lit "t b" ++ [0x1EA1] ++ lit "i. M" ++ [0x1EDF] ++ lit " Console "
  ++ [0x111] ++ [0x1EC3] ++ lit " xem chi ti" ++ [0x1EBF] ++ lit "t.".

Section Deps.

(** The four collaborators the constructor receives. *)
Variable scheduleLoader : Eff (list TMUScheduleItem).
Variable mapper : list TMUScheduleItem -> Eff (list CalendarEvent).
Variable serializer : list CalendarEvent -> Eff jsstring.
Variable downloader : jsstring -> jsstring -> jsstring -> Eff unit.

Definition exportCurrentTerm : Eff unit :=
  let* _ := emit (SetTextContent working) in
  let* _ := emit (SetDisabled true) in
  try_finally
    (try_catch
       (let* schedules := scheduleLoader in
        let* events := mapper schedules in
        if (length events =? 0)%nat then emit (Alert nothingToExport)
        else
          let* icsContent := serializer events in
          downloader (lit "tmu-current-term.ics")
            (lit "text/calendar;charset=utf-8;") icsContent)
       (fun err =>
          let* _ := emit (ConsoleError err) in
          emit (Alert exportFailed)))
    (let* _ := emit (SetTextContent (lit "Export")) in
     emit (SetDisabled false)).

End Deps.

(** The application as the bootstrap wires it. *)
Definition app (host : Host) (context : TMUInterceptorContext.t)
  : Eff unit :=
  exportCurrentTerm
    (TMUScheduleService.loadCurrentTermSchedules host context)
    (TMUScheduleToEventMapper.map host)
    (fun events => ret (IcsCalendarSerializer.serialize events))
    (BrowserFileDownloader.downloadTextFile host).

End TMUExporterApp.

(** * Vocabulary of the properties *)

Import TMUScheduleToEventMapper.

(** ** The Mapper, record by record *)

(** The components of the date field and of the period-range field, as
    [toEvent] destructures them ([None] for an absent component). *)
Definition date_component (item : TMUScheduleItem) (i : nat)
  : option spec_float :=
  List.map JS.StringToNumber (JS.split (Date item) (lit "/")) !! i.

Definition period_component (item : TMUScheduleItem) (i : nat)
  : option spec_float :=
  List.map JS.StringToNumber (JS.split (PeriodName item) (lit "-")) !! i.

(** The period-table lookup of the start ([0]) or end ([1]) period. *)
Definition period_lookup (item : TMUScheduleItem) (i : nat)
  : option PeriodTime :=
  PERIOD_TIME !! ToPropertyKey (period_component item i).

(** A record is mappable when the day, month and year of its date are
    all truthy and both period lookups succeed. *)
Definition date_ok (item : TMUScheduleItem) : bool :=
  forallb (fun i => negb (not_number (date_component item i)))
    [0; 1; 2]%nat.

Definition periods_ok (item : TMUScheduleItem) : bool :=
  forallb (fun i => bool_decide (is_Some (period_lookup item i)))
    [0; 1]%nat.

Definition mappable (item : TMUScheduleItem) : bool :=
  date_ok item && periods_ok item.

(** [e] is the complete event of [item]: every field but the identifier
    is determined by the record, and the identifier is a fresh one. *)
Definition event_of (item : TMUScheduleItem) (e : CalendarEvent) : Prop :=
  exists d m y st et room,
    date_component item 0 = Some d /\ date_component item 1 = Some m
    /\ date_component item 2 = Some y
    /\ period_lookup item 0 = Some st /\ period_lookup item 1 = Some et
    /\ room = cleanRoom (RoomID item)
    /\ (exists uuid, uid e = lit "tmu-" ++ uuid)
    /\ title e = CurriculumName item ++ lit " - " ++ room
    /\ location e = room
    /\ description e
       = describe item (default [] (JS.match_paren_group (CaHoc item)))
    /\ start e = DateUtils.toICSDate y m d (sh st) (sm st)
    /\ end_ e = DateUtils.toICSDate y m d (eh et) (em et).

(** The world after one more identifier has been drawn. *)
Definition drawn (n : nat) (w : World) : World :=
  {| trace := trace w; uid_calls := n + uid_calls w;
     fetch_calls := fetch_calls w |}.

(** ** Scenario 1 *)

(** The record of the scenario; the fields the scenario leaves open are
    arguments. *)
Definition scenario1 (caHoc unit : jsstring) (periods : spec_float + jsstring)
    (professor curriculum : jsstring) : TMUScheduleItem :=
  {| Date := lit "25/02/2026";
     PeriodName := lit "1-3";
     RoomID := lit "P101</br>extra";
     CaHoc := caHoc;
     ScheduleStudyUnitID := unit;
     NumberOfPeriods := periods;
     ProfessorName := professor;
     CurriculumName := curriculum |}.

(** ** Escaping *)

(** The escape of one character: what the four substitutions, each applied
    once, make of it. *)
Definition escape_char (c : code_unit) : jsstring :=
  if c =? 0x5C then [0x5C; 0x5C]
  else if c =? 0x0A then [0x5C; 0x6E]
  else if c =? 0x2C then [0x5C; 0x2C]
  else if c =? 0x3B then [0x5C; 0x3B]
  else [c].

(** Reversing the substitutions, reading from the left: a backslash and
    the character after it stand for the character that was escaped; a
    backslash before anything else stands for itself. *)
Fixpoint unescapeText (s : jsstring) : jsstring :=
  match s with
  | [] => []
  | c :: s' =>
      if c =? 0x5C then
        match s' with
        | d :: s'' =>
            if d =? 0x6E then 0x0A :: unescapeText s''
            else if (d =? 0x5C) || (d =? 0x2C) || (d =? 0x3B)
                 then d :: unescapeText s''
                 else c :: unescapeText s'
        | [] => [c]
        end
      else c :: unescapeText s'
  end.

(** The other reading of "reversing the substitutions": one pass per
    substitution, each replacing the escape by its character everywhere.
    [replace_pair a b c s] replaces every [a b] of [s] by [c]. *)
Fixpoint replace_pair (a b c : code_unit) (s : jsstring) : jsstring :=
  match s with
  | [] => []
  | x :: s' =>
      match s' with
      | y :: s'' =>
          if (x =? a) && (y =? b) then c :: replace_pair a b c s''
          else x :: replace_pair a b c s'
      | [] => [x]
      end
  end.

Definition unescape_pass_by_pass (s : jsstring) : jsstring :=
  replace_pair 0x5C 0x5C 0x5C
    (replace_pair 0x5C 0x6E 0x0A
       (replace_pair 0x5C 0x2C 0x2C (replace_pair 0x5C 0x3B 0x3B s))).

(** ** The week filter *)

(** [w] has the term and the year of [c], by [===]. *)
Definition same_term (c w : WeekScheduleItem) : Prop :=
  JS.strict_eq (TermID w) (TermID c) = true
  /\ JS.strict_eq (YearStudy w) (YearStudy c) = true.

(** [selects P l r]: [r] is [l] without its elements that fail [P], nothing
    else removed, nothing moved. *)
Inductive selects {A : Type} (P : A -> Prop) : list A -> list A -> Prop :=
| selects_nil : selects P [] []
| selects_keep x l r : P x -> selects P l r -> selects P (x :: l) (x :: r)
| selects_drop x l r : ~ P x -> selects P l r -> selects P (x :: l) r.

(** ** Credential capture *)

(** The values of the headers whose lower-cased name is [name], in the
    order in which the page set them. *)
Definition seen (host : Host) (name : jsstring)
    (hs : list (jsstring * jsstring)) : list jsstring :=
  List.map snd
    (List.filter
       (fun h => JS.str_eqb (TMUInterceptorContext.toLowerCase host h.1) name)
       hs).

(** The first value seen, if any. *)
Definition first_seen (host : Host) (name : jsstring)
    (hs : list (jsstring * jsstring)) : option jsstring :=
  head (seen host name hs).

(** The first value seen that is not the empty string; without one, the
    empty string if the header was seen at all. *)
Definition first_nonempty_seen (host : Host) (name : jsstring)
    (hs : list (jsstring * jsstring)) : option jsstring :=
  match List.find (fun v => negb (not_string (Some v))) (seen host name hs) with
  | Some v => Some v
  | None => head (seen host name hs)
  end.

(** The claim that the first value seen wins, whatever it is. *)
Definition first_seen_wins : Prop :=
  forall (host : Host) (hs : list (jsstring * jsstring)),
    let self :=
      TMUInterceptorContext.setRequestHeaders host TMUInterceptorContext.new
        hs in
    TMUInterceptorContext.apiKey self = first_seen host (lit "apikey") hs
    /\ TMUInterceptorContext.authorization self
       = first_seen host (lit "authorization") hs.

(** ** Hosts and inputs of the examples *)

Definition example_host : Host :=
  {| toLowerCase_unicode := fun s => s;
     JSON_parse := fun _ => None;
     hasRandomUUID := true;
     randomUUID := fun n => lit "uuid-" ++ JS.decimal_digits (N.of_nat n);
     Date_now := fun _ => JS.of_Z 1772000000000;
     Math_random := fun _ => JS.of_Z 0;
     fetch := fun _ _ _ => NetworkError;
     settle_order := [];
     save_ok := fun _ _ _ => true |}.

(** The page sets an empty [apikey], then a real one. *)
Definition empty_then_key : list (jsstring * jsstring) :=
  [(lit "ApiKey", []); (lit "apikey", lit "k1"); (lit "APIKEY", lit "k2")].

(** ** The worlds a run leaves *)

(** The world after the effects [es] have been shown, in order. *)
Definition logged (w : World) (es : list effect) : World :=
  foldl (fun w e => (emit e w).2) w es.

(** The world after [n] more calls of [fetch]. *)
Definition fetched (n : nat) (w : World) : World :=
  {| trace := trace w; uid_calls := uid_calls w;
     fetch_calls := n + fetch_calls w |}.

(** ** The Aggregator *)

(** What one week contributes, by the outcome of its fetch: the records of
    a successful response (none when the field is missing), and nothing
    when the fetch failed, by a network error, an HTTP error or a body
    that cannot be used. *)
Definition week_records (o : fetch_outcome) : list TMUScheduleItem :=
  match o with
  | Response true _ (JsonValue data) => default [] (ResultDataSchedule data)
  | _ => []
  end.

(** The outcomes of the fetches for [weeks], issued in the order of the
    list from call number [n] on. *)
Fixpoint outcomes (host : Host) (headers : gmap (list N) (list N)) (n : nat)
    (weeks : list WeekScheduleItem) : list fetch_outcome :=
  match weeks with
  | [] => []
  | week :: weeks' =>
      fetch host n (TMUScheduleService.scheduleUrl week) headers
      :: outcomes host headers (S n) weeks'
  end.

(** The notice of the precondition that is not met. *)
Definition precondition_alert (context : TMUInterceptorContext.t) : jsstring :=
  match TMUInterceptorContext.getWeeks context with
  | None | Some [] => TMUScheduleService.weeksNotLoaded
  | Some (_ :: _) => TMUScheduleService.headersNotCaptured
  end.

(** ** Scenario 3: one week fails *)

Definition week (term year n : Z) : WeekScheduleItem :=
  {| TermID := JS.of_Z term; YearStudy := JS.of_Z year; Week := JS.of_Z n |}.

Definition lesson (date : jsstring) : TMUScheduleItem :=
  {| Date := date; PeriodName := lit "1-3"; RoomID := lit "P101";
     CaHoc := lit "(07:00)"; ScheduleStudyUnitID := lit "LHP1";
     NumberOfPeriods := inl (JS.of_Z 3); ProfessorName := lit "GV";
     CurriculumName := lit "Math" |}.

Definition scenario3_context : TMUInterceptorContext.t :=
  {| TMUInterceptorContext.apiKey := Some (lit "key");
     TMUInterceptorContext.authorization := Some (lit "Bearer token");
     TMUInterceptorContext.cachedWeeks :=
       Some [week 2 2025 27; week 2 2025 28; week 1 2025 5; week 2 2025 29] |}.

(** The second fetch ends in HTTP 500; the fetches settle last, first,
    second. *)
Definition scenario3_host : Host :=
  {| toLowerCase_unicode := fun s => s;
     JSON_parse := fun _ => None;
     hasRandomUUID := true;
     randomUUID := fun n => lit "uuid-" ++ JS.decimal_digits (N.of_nat n);
     Date_now := fun _ => JS.of_Z 1772000000000;
     Math_random := fun _ => JS.of_Z 0;
     fetch := fun n _ _ =>
       match n with
       | 0%nat =>
           Response true (JS.of_Z 200)
             (JsonValue
                {| ResultDataSchedule := Some [lesson (lit "02/03/2026")] |})
       | 1%nat => Response false (JS.of_Z 500) InvalidJson
       | _ =>
           Response true (JS.of_Z 200)
             (JsonValue
                {| ResultDataSchedule := Some [lesson (lit "16/03/2026")] |})
       end;
     settle_order := [2; 0; 1]%nat;
     save_ok := fun _ _ _ => true |}.

(** ** Start before end *)

(** The claim that the start of an event is before its end whenever both
    period lookups succeed. *)
Definition start_before_end : Prop :=
  forall (host : Host) (item : TMUScheduleItem) (w w' : World)
         (e : CalendarEvent),
    is_Some (period_lookup item 0) ->
    is_Some (period_lookup item 1) ->
    toEvent host item w = (Return (Some e), w') ->
    JS.str_ltb (start e) (end_ e) = true.

(** A record whose period range runs backwards, and its event. *)
Definition reversed_item : TMUScheduleItem :=
  {| Date := lit "25/02/2026"; PeriodName := lit "3-1"; RoomID := lit "P101";
     CaHoc := lit "(08:20)"; ScheduleStudyUnitID := lit "LHP1";
     NumberOfPeriods := inl (JS.of_Z 3); ProfessorName := lit "GV";
     CurriculumName := lit "Math" |}.

Definition reversed_event : CalendarEvent :=
  {| uid := lit "tmu-uuid-0";
     title := lit "Math - P101";
     location := lit "P101";
     description := describe reversed_item (lit "08:20");
     start := lit "20260225T082000";
     end_ := lit "20260225T072000" |}.

(** * Vocabulary of the further properties *)

(** The number of line feeds in a text. *)
Definition line_feeds (s : jsstring) : nat := count_occ N.eq_dec s 0x0A.

(** ** The interceptor on the page's requests *)

(** What the replacements of [open] and [send] keep on a request object:
    the URL recorded by [open], and how many of the [load] listeners of
    [send] the object carries. *)
Record XHR := {
  _tmu_url : option jsstring;
  weekListeners : nat;
}.

(** The replacement of [XMLHttpRequest.prototype.open], up to its call of
    the original function. *)
Definition xhr_open (xhr : XHR) (method url : jsstring) : XHR :=
  {| _tmu_url := Some url; weekListeners := weekListeners xhr |}.

(** The replacement of [XMLHttpRequest.prototype.send], up to its call of
    the original function. *)
Definition xhr_send (xhr : XHR) : XHR :=
  match _tmu_url xhr with
  | Some url =>
      if TMUInterceptorContext.listens url
      then {| _tmu_url := _tmu_url xhr;
              weekListeners := S (weekListeners xhr) |}
      else xhr
  | None => xhr
  end.


(** A header name that is neither secret, once lower-cased. *)
Definition other_header (host : Host) (h : jsstring * jsstring) : Prop :=
  TMUInterceptorContext.toLowerCase host h.1 <> lit "apikey"
  /\ TMUInterceptorContext.toLowerCase host h.1 <> lit "authorization".

(** ** Hosts of the further examples *)

(** The host of scenario 3 with a file save that fails. *)
Definition failing_save_host : Host :=
  {| toLowerCase_unicode := toLowerCase_unicode scenario3_host;
     JSON_parse := JSON_parse scenario3_host;
     hasRandomUUID := hasRandomUUID scenario3_host;
     randomUUID := randomUUID scenario3_host;
     Date_now := Date_now scenario3_host;
     Math_random := Math_random scenario3_host;
     fetch := fetch scenario3_host;
     settle_order := settle_order scenario3_host;
     save_ok := fun _ _ _ => false |}.

(** The host of scenario 3 with a third fetch that never settles. *)
Definition hanging_host : Host :=
  {| toLowerCase_unicode := toLowerCase_unicode scenario3_host;
     JSON_parse := JSON_parse scenario3_host;
     hasRandomUUID := hasRandomUUID scenario3_host;
     randomUUID := randomUUID scenario3_host;
     Date_now := Date_now scenario3_host;
     Math_random := Math_random scenario3_host;
     fetch := fetch scenario3_host;
     settle_order := [1; 0]%nat;
     save_ok := save_ok scenario3_host |}.

(** The two effects with which a run starts and the two with which it
    ends. *)
Definition busy : list effect :=
  [SetTextContent TMUExporterApp.working; SetDisabled true].

Definition restored : list effect :=
  [SetTextContent (lit "Export"); SetDisabled false].

(** The notice of a failed run. *)
Definition failure_notice (err : exn) : list effect :=
  [ConsoleError err; Alert TMUExporterApp.exportFailed].

(** The name and the type of the exported file. *)
Definition export_filename : jsstring := lit "tmu-current-term.ics".
Definition export_mime : jsstring := lit "text/calendar;charset=utf-8;".

(** The events of the two lessons that scenario 3 fetches. *)
Definition lesson_event (n : N) (date stamp : jsstring) : CalendarEvent :=
  {| uid := lit "tmu-uuid-" ++ JS.decimal_digits n;
     title := lit "Math - P101";
     location := lit "P101";
     description := describe (lesson date) (lit "07:00");
     start := stamp ++ lit "T063000";
     end_ := stamp ++ lit "T091000" |}.

Definition scenario3_events : list CalendarEvent :=
  [lesson_event 0 (lit "02/03/2026") (lit "20260302");
   lesson_event 1 (lit "16/03/2026") (lit "20260316")].

(** ** Numerals, dates and clock times *)

Definition is_digit (c : code_unit) : bool := JS.in_range 0x30 0x39 c.

(** The number that a string of decimal digits writes (leading zeros
    allowed). *)
Definition numeral_value (ds : jsstring) : Z :=
  Z.of_N (fold_left (fun acc c => acc * 10 + (c - 0x30)) ds 0).

(** [ds] is a numeral of [n]: a non-empty string of digits that writes
    [n]. *)
Definition numeral (ds : jsstring) (n : Z) : Prop :=
  ds <> [] /\ forallb is_digit ds = true /\ numeral_value ds = n.

(** A number below 100 on two digits. *)
Definition two_digits (n : Z) : jsstring :=
  [0x30 + Z.to_N (n / 10); 0x30 + Z.to_N (n mod 10)].

(** The compact timestamp of a date and a clock time. *)
Definition timestamp (y m d h min : Z) : jsstring :=
  JS.decimal_digits (Z.to_N y) ++ two_digits m ++ two_digits d ++ lit "T"
  ++ two_digits h ++ two_digits min ++ lit "00".

(** The period table as clock times: for each period its start (hour,
    minute) and its end. *)
Definition period_clocks : list (Z * (Z * Z) * (Z * Z)) :=
  [ (1, (6, 30), (7, 20)); (2, (7, 25), (8, 15)); (3, (8, 20), (9, 10));
    (4, (9, 20), (10, 10)); (5, (10, 15), (11, 5)); (6, (11, 10), (12, 0));
    (7, (12, 30), (13, 20)); (8, (13, 25), (14, 15)); (9, (14, 20), (15, 10));
    (10, (15, 20), (16, 10)); (11, (16, 15), (17, 5));
    (12, (17, 10), (18, 0)) ]%Z.

(** The integers from [0] to [n - 1]. *)
Definition below (n : Z) : list Z :=
  List.map Z.of_nat (seq 0 (Z.to_nat n)).

(** ** Well-formed records *)

(** A record with a date "d/m/y" and a period range "i-j" written with
    numerals. *)
Definition well_formed (item : TMUScheduleItem) (d m y i j : Z) : Prop :=
  exists dd mm yyyy ps pe,
    Date item = dd ++ lit "/" ++ mm ++ lit "/" ++ yyyy
    /\ numeral dd d /\ numeral mm m /\ numeral yyyy y
    /\ PeriodName item = ps ++ lit "-" ++ pe
    /\ numeral ps i /\ numeral pe j.

(** ** Identifiers *)

(** The identifier that [IdFactory.uid] makes at its [n]-th call, after
    the prefix and its dash. *)
Definition uuid_of (host : Host) (n : nat) : jsstring :=
  if hasRandomUUID host then randomUUID host n
  else JS.Number_toString (Date_now host n) ++ lit "-"
       ++ JS.Number_toString (Math_random host n).

(** ** White space *)

(** A text that neither begins nor ends with white space. *)
Definition trimmed (s : jsstring) : Prop :=
  (forall c r, s = c :: r -> JS.isStrWhiteSpaceChar c = false)
  /\ (forall r c, s = r ++ [c] -> JS.isStrWhiteSpaceChar c = false).

(** ** UI: the export button

    [injectExportButton] of [TMUExporterApp], on what it reads and writes
    of the page. *)

(** An element of the page: whether the selector [button] matches it, its
    classes, its text, the left margin of its style, and whether a click
    on it runs [exportCurrentTerm]. *)
Record Element := {
  isButton : bool;
  classList : list (list N);
  textContent : list N;
  marginLeft : option (list N);
  clickExports : bool;
}.

(** The page: the container that
    [document.querySelector("#ScheduleComponent div.MuiGrid-grid-md-4")]
    finds, if there is one, as the list of the elements below it in
    document order (the order in which [querySelector] searches, and at
    whose end [appendChild] puts a new child). *)
Abbreviation Page := (option (list Element)) (only parsing).

Definition hasClass (name : jsstring) (el : Element) : bool :=
  bool_decide (name ∈ classList el).

(** [classList.add] *)
Definition classList_add (name : jsstring) (classes : list (list N))
  : list (list N) :=
  if bool_decide (name ∈ classes) then classes else classes ++ [name].

(** The clone of [sample] as [addButtonIfPossible] finishes it:
    [cloneNode(true)] copies the attributes and not the listeners, the
    text replaces what the clone contains, then come the class, the
    margin and the click listener. *)
Definition exportButton (sample : Element) : Element :=
  {| isButton := isButton sample;
     classList := classList_add (lit "tmu-export-btn") (classList sample);
     textContent := lit "Export";
     marginLeft := Some (lit "10px");
     clickExports := true |}.

Definition addButtonIfPossible (page : Page) : Page :=
  match page with
  | None => page
  | Some container =>
      if existsb (hasClass (lit "tmu-export-btn")) container then page
      else
        match List.find isButton container with
        | None => page
        | Some sample => Some (container ++ [exportButton sample])
        end
  end.

(** A button of the host page and a caption, for the examples. *)
Definition host_button : Element :=
  {| isButton := true; classList := [lit "MuiButton-root"];
     textContent := lit "Xem"; marginLeft := None; clickExports := false |}.

Definition host_caption : Element :=
  {| isButton := false; classList := []; textContent := lit "TKB";
     marginLeft := None; clickExports := false |}.

(** * Properties *)

(** ** The runtime on examples *)

Example split_date :
  JS.split (lit "25/02/2026") (lit "/") = [lit "25"; lit "02"; lit "2026"].
Proof. reflexivity. Qed.

Example split_room :
  JS.split (lit "P101</br>extra") (lit "</br>") = [lit "P101"; lit "extra"].
Proof. reflexivity. Qed.

Example split_trailing : JS.split (lit "a-") (lit "-") = [lit "a"; []].
Proof. reflexivity. Qed.

Example match_cahoc :
  JS.match_paren_group (lit "Ca 1 (07:00) x (08:00)") = Some (lit "07:00").
Proof. reflexivity. Qed.

Section NumberExamples.
Local Open Scope string_scope.

Example number_roundtrips :
List.map (fun s => JS.Number_toString (JS.StringToNumber (lit s)))
  ["2026"; "02"; " 25 "; "0x1F"; "1e3"; "0.1"; "-0"; "1e21"; "1e23";
   "123456789012345680000"; "0.000001"; "1e-7"; "5e-324"; "1e-400";
   "1.7976931348623157e308"; "1e400"; "9007199254740993";
   "0.30000000000000004"; "-12.5"; ".5"; "5."; "abc"; ""; "1 2"; "-0x10";
   "4.35"; "1.5e-10"; "123456.789"; "2.5e+25"]
= List.map lit
  ["2026"; "2"; "25"; "31"; "1000"; "0.1"; "0"; "1e+21"; "1e+23";
   "123456789012345680000"; "0.000001"; "1e-7"; "5e-324"; "0";
   "1.7976931348623157e+308"; "Infinity"; "9007199254740992";
   "0.30000000000000004"; "-12.5"; "0.5"; "5"; "NaN"; "0"; "NaN"; "NaN";
   "4.35"; "1.5e-10"; "123456.789"; "2.5e+25"].
Proof. vm_compute. reflexivity. Qed.

End NumberExamples.

(** ** The Mapper, record by record *)

Lemma drawn_0 w : drawn 0 w = w.
Proof. by destruct w. Qed.

Lemma drawn_drawn a b w : drawn a (drawn b w) = drawn (a + b) w.
Proof. unfold drawn; simpl. f_equal. lia. Qed.

Lemma not_number_false v :
  not_number v = false -> exists x, v = Some x.
Proof. destruct v; [eauto | discriminate]. Qed.

(** A record is not mappable exactly when a component of its date is
    falsy or a period lookup misses. *)
Lemma mappable_false_iff item :
  mappable item = false
  <-> (exists i, (i < 3)%nat /\ not_number (date_component item i) = true)
      \/ (exists j, (j < 2)%nat /\ period_lookup item j = None).
Proof.
  unfold mappable, date_ok, periods_ok, forallb. split.
  - destruct (not_number (date_component item 0)) eqn:H0;
      [left; exists 0%nat; split; [lia | done]|].
    destruct (not_number (date_component item 1)) eqn:H1;
      [left; exists 1%nat; split; [lia | done]|].
    destruct (not_number (date_component item 2)) eqn:H2;
      [left; exists 2%nat; split; [lia | done]|].
    destruct (period_lookup item 0) eqn:Hs;
      [|right; exists 0%nat; split; [lia | done]].
    destruct (period_lookup item 1) eqn:He;
      [|right; exists 1%nat; split; [lia | done]].
    rewrite !bool_decide_eq_true_2 by eauto. discriminate.
  - intros [(i & Hi & Hd)|(j & Hj & Hp)].
    + destruct i as [|[|[|i]]]; [..|lia]; rewrite Hd; cbn [negb andb];
        by rewrite ?andb_false_r.
    + destruct j as [|[|j]]; [..|lia]; rewrite Hp;
        rewrite (bool_decide_eq_false_2 (is_Some None))
          by (by intros [? ?]);
        by rewrite ?andb_false_r.
Qed.

(** [toEvent] gives [null] exactly on the records that are not mappable,
    and a complete event otherwise. *)
Lemma toEvent_cases host item w :
  (mappable item = false
   /\ toEvent host item w = (Return None, w))
  \/ (mappable item = true
      /\ exists e, event_of item e
                   /\ toEvent host item w = (Return (Some e), drawn 1 w)).
Proof.
  unfold toEvent, mappable, date_ok, periods_ok, forallb.
  fold (date_component item 0) (date_component item 1)
       (date_component item 2).
  fold (period_component item 0) (period_component item 1).
  fold (period_lookup item 0) (period_lookup item 1).
  destruct (not_number (date_component item 0)) eqn:Hd;
    [left; split; reflexivity|].
  destruct (not_number (date_component item 1)) eqn:Hm;
    [left; split; reflexivity|].
  destruct (not_number (date_component item 2)) eqn:Hy;
    [left; split; reflexivity|].
  destruct (period_lookup item 0) as [st|] eqn:Hst;
    [|left; split; reflexivity].
  destruct (period_lookup item 1) as [et|] eqn:Het;
    [|left; split; reflexivity].
  right. split; [reflexivity|].
  apply not_number_false in Hd as [d Hd'].
  apply not_number_false in Hm as [m Hm'].
  apply not_number_false in Hy as [y Hy'].
  eexists. split; [|reflexivity].
  exists d, m, y, st, et, (cleanRoom (RoomID item)).
  rewrite Hd', Hm', Hy'. simpl.
  repeat split; try assumption; try reflexivity.
  eexists. reflexivity.
Qed.

(** The events of a list of records, before [null] is filtered out. *)
Lemma map_eff_toEvent host items : forall w,
  exists es,
    map_eff (toEvent host) items w
    = (Return es, drawn (length (omap id es)) w)
    /\ length es = length items
    /\ Forall2 event_of (List.filter mappable items) (omap id es).
Proof.
  induction items as [|item items IH]; intros w.
  - exists []. simpl. rewrite drawn_0. auto.
  - simpl. unfold bind.
    destruct (toEvent_cases host item w)
      as [[Hno ->]|[Hyes (e & He & ->)]]; rewrite ?Hno, ?Hyes.
    + destruct (IH w) as (es & -> & Hlen & Hall).
      exists (None :: es). simpl. auto.
    + destruct (IH (drawn 1 w)) as (es & -> & Hlen & Hall).
      exists (Some e :: es). simpl. rewrite drawn_drawn.
      replace (length (omap id es) + 1)%nat with (S (length (omap id es)))
        by lia.
      repeat split; [by rewrite Hlen|]. by constructor.
Qed.

(** A separator that does not occur splits nothing. *)
Lemma split_scan_absent c s : forall cur,
  JS.includes s [c] = false -> JS.split_scan [c] 0 cur s = [rev cur ++ s].
Proof.
  induction s as [|a s IH]; intros cur Hs; simpl.
  - by rewrite app_nil_r.
  - simpl in Hs. rewrite andb_true_r in *.
    apply orb_false_elim in Hs as [-> Hs].
    rewrite IH by assumption. simpl. by rewrite <- app_assoc.
Qed.

(** ** Scenario 1: one record, end to end *)

(** C1. For the raw record with Date "25/02/2026", PeriodName "1-3", RoomID
    "P101</br>extra" and a CaHoc made of "(07:00)" between any two texts
    (whatever its other fields, the host and the world), the Mapper produces
    exactly one event; its location is "P101", its start timestamp
    "20260225T063000" and its end timestamp "20260225T091000". *)
Theorem C1_scenario1_event :
  forall (host : Host) (w : World) (before after unit : jsstring)
         (periods : spec_float + jsstring) (professor curriculum : jsstring),
    let item :=
      scenario1 (before ++ lit "(07:00)" ++ after) unit periods professor
        curriculum in
    exists e w',
      TMUScheduleToEventMapper.toEvent host item w = (Return (Some e), w')
      /\ TMUScheduleToEventMapper.map host [item] w = (Return [e], w')
      /\ location e = lit "P101"
      /\ start e = lit "20260225T063000"
      /\ end_ e = lit "20260225T091000".
Proof.
  intros host w before after unit periods professor curriculum item.
  destruct (toEvent_cases host item w) as [[Hno _]|[_ (e & He & Hto)]].
  { exfalso. revert Hno. vm_compute. discriminate. }
  exists e, (drawn 1 w). split; [exact Hto|]. split.
  { unfold TMUScheduleToEventMapper.map, map_eff, bind. by rewrite Hto. }
  destruct He as (d & m & y & st & et & room & Hd & Hm & Hy & Hst & Het
                  & -> & _ & _ & -> & _ & -> & ->).
  assert (d = JS.of_Z 25 /\ m = JS.of_Z 2 /\ y = JS.of_Z 2026
          /\ st = mkPeriod 6 30 7 20 /\ et = mkPeriod 8 20 9 10)
    as (-> & -> & -> & -> & ->).
  { revert Hd Hm Hy Hst Het. vm_compute.
    intros [= <-] [= <-] [= <-] [= <-] [= <-]. auto. }
  vm_compute. auto.
Qed.

(** ** The Mapper as a filter *)

(** C4. For every list of raw records, the Mapper returns, in the order of
    the list, one complete event for each mappable record and nothing for
    the others: a record whose date has a falsy day, month or year, or whose
    period range fails a period-table lookup, is left out; no event is
    partial; the output is no longer than the input. *)
Theorem C4_map_is_filter :
  forall (host : Host) (items : list TMUScheduleItem) (w : World),
    exists events,
      TMUScheduleToEventMapper.map host items w
      = (Return events, drawn (length events) w)
      /\ Forall2 event_of (List.filter mappable items) events
      /\ length events = length (List.filter mappable items)
      /\ (length events <= length items)%nat.
Proof.
  intros host items w.
  destruct (map_eff_toEvent host items w) as (es & Hes & Hlen & Hall).
  exists (omap id es). unfold TMUScheduleToEventMapper.map, bind.
  rewrite Hes. split; [reflexivity|]. split; [exact Hall|].
  apply Forall2_length in Hall. split; [by rewrite Hall|].
  rewrite <- Hall. apply filter_length_le.
Qed.

(** ** A period range without separator *)

(** C10. For every raw record whose period-range field contains no "-",
    the end-period component is absent, the end period-table lookup misses
    and the Mapper drops the record. *)
Theorem C10_single_period_dropped :
  forall (host : Host) (item : TMUScheduleItem) (w : World),
    JS.includes (PeriodName item) (lit "-") = false ->
    period_component item 1 = None
    /\ period_lookup item 1 = None
    /\ TMUScheduleToEventMapper.toEvent host item w = (Return None, w)
    /\ TMUScheduleToEventMapper.map host [item] w = (Return [], w).
Proof.
  intros host item w Hsep.
  assert (Hc : period_component item 1 = None).
  { unfold period_component.
    change (JS.split (PeriodName item) (lit "-"))
      with (JS.split_scan [0x2D] 0 [] (PeriodName item)).
    change (lit "-") with [0x2D] in Hsep.
    by rewrite (split_scan_absent _ _ [] Hsep). }
  assert (Hl : period_lookup item 1 = None).
  { unfold period_lookup. rewrite Hc. by vm_compute. }
  assert (Hno : mappable item = false).
  { unfold mappable, periods_ok, forallb. rewrite Hl.
    rewrite (bool_decide_eq_false_2 (is_Some None)) by (by intros [? ?]).
    by rewrite !andb_false_r. }
  destruct (toEvent_cases host item w) as [[_ Hto]|[Hyes _]];
    [|congruence].
  repeat split; try assumption.
  unfold TMUScheduleToEventMapper.map, map_eff, bind. by rewrite Hto.
Qed.

(** ** Text escaping *)

Lemma replace_all_flat_map c rep (f : N -> list N) s :
  JS.replace_all c rep (flat_map f s)
  = flat_map (fun x => JS.replace_all c rep (f x)) s.
Proof.
  unfold JS.replace_all. induction s as [|a s IH]; simpl; [reflexivity|].
  by rewrite flat_map_app, IH.
Qed.

Lemma escape_one c :
  JS.replace_all 0x3B [0x5C; 0x3B]
    (JS.replace_all 0x2C [0x5C; 0x2C]
       (JS.replace_all 0x0A [0x5C; 0x6E]
          (if c =? 0x5C then [0x5C; 0x5C] else [c])))
  = escape_char c.
Proof.
  unfold escape_char.
  destruct (c =? 0x5C) eqn:H1; [reflexivity|].
  destruct (c =? 0x0A) eqn:H2.
  { apply N.eqb_eq in H2 as ->. reflexivity. }
  destruct (c =? 0x2C) eqn:H3.
  { apply N.eqb_eq in H3 as ->. reflexivity. }
  destruct (c =? 0x3B) eqn:H4.
  { apply N.eqb_eq in H4 as ->. reflexivity. }
  unfold JS.replace_all. simpl. rewrite H2. simpl. rewrite H3. simpl.
  by rewrite H4.
Qed.

(** The four substitutions in the order of the source are one pass that
    escapes every character once. *)
Lemma escapeText_one_pass s :
  IcsCalendarSerializer.escapeText s = flat_map escape_char s.
Proof.
  unfold IcsCalendarSerializer.escapeText.
  unfold JS.replace_all at 4.
  rewrite !replace_all_flat_map.
  apply flat_map_ext. intros c. apply escape_one.
Qed.

Lemma unescape_escape_chars s :
  unescapeText (flat_map escape_char s) = s.
Proof.
  induction s as [|c s IH]; [reflexivity|].
  simpl flat_map. unfold escape_char at 1.
  destruct (c =? 0x5C) eqn:H1.
  { apply N.eqb_eq in H1 as ->. simpl. by rewrite IH. }
  destruct (c =? 0x0A) eqn:H2.
  { apply N.eqb_eq in H2 as ->. simpl. by rewrite IH. }
  destruct (c =? 0x2C) eqn:H3.
  { apply N.eqb_eq in H3 as ->. simpl. by rewrite IH. }
  destruct (c =? 0x3B) eqn:H4.
  { apply N.eqb_eq in H4 as ->. simpl. by rewrite IH. }
  simpl. by rewrite H1, IH.
Qed.

(** Reversing the substitutions one pass after the other is not an
    inverse: in the escape of a backslash followed by [n], the second
    backslash and the [n] read as an escaped newline. *)
Example pass_by_pass_is_not_inverse :
  unescape_pass_by_pass (IcsCalendarSerializer.escapeText [0x5C; 0x6E])
  = [0x5C; 0x0A].
Proof. reflexivity. Qed.

(** C3. The serializer escapes the three free-text fields of an event
    (summary, location, description) with [escapeText]; [escapeText] is
    the four substitutions backslash, newline, comma, semicolon in that
    order; together they escape every character exactly once (nothing is
    escaped twice); and reversing the substitutions on an escaped string
    gives the original string back, for every string (so also for those
    without other control characters). *)
Theorem C3_escapeText_roundtrip :
  forall (e : CalendarEvent) (input : jsstring),
    IcsCalendarSerializer.serializeEvent e
    = IcsCalendarSerializer.line (lit "BEGIN:VEVENT")
      ++ IcsCalendarSerializer.line (lit "UID:" ++ uid e)
      ++ IcsCalendarSerializer.line (lit "DTSTAMP:" ++ start e)
      ++ IcsCalendarSerializer.line
           (lit "DTSTART;TZID=Asia/Ho_Chi_Minh:" ++ start e)
      ++ IcsCalendarSerializer.line
           (lit "DTEND;TZID=Asia/Ho_Chi_Minh:" ++ end_ e)
      ++ IcsCalendarSerializer.line
           (lit "SUMMARY:" ++ IcsCalendarSerializer.escapeText (title e))
      ++ IcsCalendarSerializer.line
           (lit "LOCATION:" ++ IcsCalendarSerializer.escapeText (location e))
      ++ IcsCalendarSerializer.line
           (lit "DESCRIPTION:"
            ++ IcsCalendarSerializer.escapeText (description e))
      ++ IcsCalendarSerializer.line (lit "END:VEVENT")
    /\ IcsCalendarSerializer.escapeText input
       = JS.replace_all 0x3B [0x5C; 0x3B]
           (JS.replace_all 0x2C [0x5C; 0x2C]
              (JS.replace_all 0x0A [0x5C; 0x6E]
                 (JS.replace_all 0x5C [0x5C; 0x5C] input)))
    /\ IcsCalendarSerializer.escapeText input = flat_map escape_char input
    /\ unescapeText (IcsCalendarSerializer.escapeText input) = input.
Proof.
  intros e input. split; [reflexivity|]. split; [reflexivity|].
  split; [apply escapeText_one_pass|].
  rewrite escapeText_one_pass. apply unescape_escape_chars.
Qed.

(** ** The week filter *)

Lemma same_term_dec c w :
  (JS.strict_eq (TermID w) (TermID c)
   && JS.strict_eq (YearStudy w) (YearStudy c)) = true
  <-> same_term c w.
Proof. unfold same_term. by rewrite andb_true_iff. Qed.

Lemma filter_selects {A} (p : A -> bool) (P : A -> Prop) l :
  (forall x, p x = true <-> P x) -> selects P l (List.filter p l).
Proof.
  intros Hp. induction l as [|x l IH]; simpl; [constructor|].
  destruct (p x) eqn:Hx.
  - apply selects_keep; [by apply Hp | exact IH].
  - apply selects_drop; [|exact IH].
    intros HP. apply Hp in HP. congruence.
Qed.

Lemma selects_sublist {A} (P : A -> Prop) l r : selects P l r -> sublist r l.
Proof. induction 1; by constructor. Qed.

Lemma selects_elem_of {A} (P : A -> Prop) l r :
  selects P l r -> forall x, x ∈ r <-> x ∈ l /\ P x.
Proof.
  induction 1 as [|y l r Hy _ IH|y l r Hy _ IH]; intros x.
  - split; [by intros ?%elem_of_nil | by intros [?%elem_of_nil _]].
  - rewrite !elem_of_cons, IH. split.
    + intros [->|[? ?]]; auto.
    + intros [[->|?] ?]; auto.
  - rewrite elem_of_cons, IH. split.
    + intros [? ?]; auto.
    + intros [[->|?] ?]; [contradiction | auto].
Qed.

(** [x === x] holds for every number but [NaN]. *)
Lemma strict_eq_refl x : x <> JS.NaN -> JS.strict_eq x x = true.
Proof.
  unfold JS.strict_eq, SFeqb, SFcompare.
  destruct x as [[]|[]| |[] m e]; try done; intros _;
    by rewrite Z.compare_refl, ?Pos.compare_cont_refl.
Qed.

(** The first week is among the weeks of its own term, unless its TermID
    or YearStudy is [NaN] (which [JSON.parse] never gives). *)
Lemma termWeeks_first currentTerm rest :
  TermID currentTerm <> JS.NaN -> YearStudy currentTerm <> JS.NaN ->
  exists rest',
    TMUScheduleService.termWeeks (currentTerm :: rest) currentTerm
    = currentTerm :: rest'.
Proof.
  intros Ht Hy. unfold TMUScheduleService.termWeeks. simpl.
  rewrite !strict_eq_refl by done. simpl. eauto.
Qed.

(** C2. For every week list with a first element, the week filter of the
    Aggregator keeps exactly the elements whose TermID and YearStudy are
    equal ([===]) to those of the first element, in the order of the list:
    it removes the other elements and nothing else, moves nothing, and an
    element is in the result exactly when it is in the list and has the
    first element's term and year. *)
Theorem C2_termWeeks_exact :
  forall (currentTerm : WeekScheduleItem) (rest : list WeekScheduleItem),
    let weeks := currentTerm :: rest in
    let result := TMUScheduleService.termWeeks weeks currentTerm in
    selects (same_term currentTerm) weeks result
    /\ sublist result weeks
    /\ (forall w, w ∈ result <-> w ∈ weeks /\ same_term currentTerm w).
Proof.
  intros currentTerm rest weeks result.
  assert (Hsel : selects (same_term currentTerm) weeks result).
  { apply filter_selects. intros w. apply same_term_dec. }
  split; [exact Hsel|]. split.
  - eapply selects_sublist, Hsel.
  - eapply selects_elem_of, Hsel.
Qed.

(** ** Credential capture *)

Section Capture.

Import TMUInterceptorContext.

Variable host : Host.

(** One header-setting step, field by field. *)
Lemma setRequestHeader_apiKey self key value :
  apiKey (setRequestHeader host self key value)
  = if not_string (apiKey self)
       && JS.str_eqb (toLowerCase host key) (lit "apikey")
    then Some value else apiKey self.
Proof.
  unfold setRequestHeader.
  destruct (not_string (apiKey self)
            && JS.str_eqb (toLowerCase host key) (lit "apikey"));
    simpl;
    match goal with
    | |- context [if ?b then _ else _] => destruct b
    end; reflexivity.
Qed.

Lemma setRequestHeader_authorization self key value :
  authorization (setRequestHeader host self key value)
  = if not_string (authorization self)
       && JS.str_eqb (toLowerCase host key) (lit "authorization")
    then Some value else authorization self.
Proof.
  unfold setRequestHeader.
  destruct (not_string (apiKey self)
            && JS.str_eqb (toLowerCase host key) (lit "apikey"));
    simpl;
    match goal with
    | |- context [if ?b then _ else _] => destruct b
    end; reflexivity.
Qed.

(** What a field holding [cur] holds after the headers [hs], for a field
    that a step updates as [setRequestHeader] does. *)
Lemma capture_fold (field : t -> option jsstring) (name : jsstring) :
  (forall self key value,
      field (setRequestHeader host self key value)
      = if not_string (field self)
           && JS.str_eqb (toLowerCase host key) name
        then Some value else field self) ->
  forall hs self,
    field (setRequestHeaders host self hs)
    = if not_string (field self)
      then match first_nonempty_seen host name hs with
           | Some v => Some v
           | None => field self
           end
      else field self.
Proof.
  intros Hstep. unfold setRequestHeaders.
  induction hs as [|[key value] hs IH]; intros self; simpl.
  { by destruct (not_string (field self)). }
  rewrite IH, Hstep. clear IH Hstep.
  unfold first_nonempty_seen, seen. simpl.
  destruct (JS.str_eqb (toLowerCase host key) name) eqn:Hn; simpl.
  - destruct (not_string (field self)) eqn:Hf; simpl; [|by rewrite Hf].
    destruct value as [|c value]; simpl; [|reflexivity].
    destruct (List.map snd _) as [|[|c v] l]; simpl; [reflexivity| |reflexivity].
    by destruct (List.find _ l).
  - rewrite andb_false_r. reflexivity.
Qed.

(** C7 (amended). Each credential field holds the first value seen for
    its header that is not the empty string: the header name is lower-cased
    before it is compared, the value is stored as it is, and once a
    non-empty value is stored no later header-setting step changes it.
    (As long as only empty values were seen the field holds the empty
    string, and before any value was seen it is null.) *)
Theorem C7_first_nonempty_wins :
  forall (hs : list (jsstring * jsstring)),
    let self := setRequestHeaders host new hs in
    apiKey self = first_nonempty_seen host (lit "apikey") hs
    /\ authorization self = first_nonempty_seen host (lit "authorization") hs
    /\ (forall v later,
           apiKey self = Some v -> v <> [] ->
           apiKey (setRequestHeaders host self later) = Some v)
    /\ (forall v later,
           authorization self = Some v -> v <> [] ->
           authorization (setRequestHeaders host self later) = Some v).
Proof.
  intros hs self.
  pose proof (capture_fold apiKey (lit "apikey") setRequestHeader_apiKey)
    as Hk.
  pose proof (capture_fold authorization (lit "authorization")
                setRequestHeader_authorization) as Ha.
  split; [|split; [|split]].
  - unfold self. rewrite Hk. simpl. by destruct (first_nonempty_seen _ _ _).
  - unfold self. rewrite Ha. simpl. by destruct (first_nonempty_seen _ _ _).
  - intros v later Hv Hne. rewrite Hk, Hv. by destruct v.
  - intros v later Hv Hne. rewrite Ha, Hv. by destruct v.
Qed.

(** C9. If either captured secret is the empty string, [getAuthHeaders]
    returns null, as it does when the secret is absent; and a header of
    that name set afterwards still has its value stored, because the
    guard of the capture tests the field for falsiness. *)
Theorem C9_empty_secret :
  forall (self : t),
    apiKey self = Some [] \/ authorization self = Some [] ->
    getAuthHeaders self = None
    /\ (forall key value,
           apiKey self = Some [] ->
           toLowerCase host key = lit "apikey" ->
           apiKey (setRequestHeader host self key value) = Some value)
    /\ (forall key value,
           authorization self = Some [] ->
           toLowerCase host key = lit "authorization" ->
           authorization (setRequestHeader host self key value) = Some value).
Proof.
  intros self Hempty. split; [|split].
  - unfold getAuthHeaders.
    destruct Hempty as [-> | ->]; simpl; [reflexivity|].
    by rewrite orb_true_r.
  - intros key value Hk Hname.
    by rewrite setRequestHeader_apiKey, Hk, Hname.
  - intros key value Ha Hname.
    by rewrite setRequestHeader_authorization, Ha, Hname.
Qed.

End Capture.

(** The first value seen does not always win: an empty first value is
    replaced by the next one. *)
Lemma C7_first_seen_overwritten : ~ first_seen_wins.
Proof.
  intros H. destruct (H example_host empty_then_key) as [Hk _].
  revert Hk. vm_compute. discriminate.
Qed.

Lemma C7_first_nonempty_wins_witness :
  TMUInterceptorContext.apiKey
    (TMUInterceptorContext.setRequestHeaders example_host
       TMUInterceptorContext.new empty_then_key)
  = Some (lit "k1").
Proof.
  destruct (C7_first_nonempty_wins example_host empty_then_key)
    as (Hk & _ & Hstable & _).
  rewrite <- (Hstable (lit "k1") [] Hk); [reflexivity | discriminate].
Defined.

Lemma C9_empty_secret_witness :
  let self :=
    TMUInterceptorContext.setRequestHeaders example_host
      TMUInterceptorContext.new [(lit "ApiKey", [])] in
  TMUInterceptorContext.apiKey self = Some []
  /\ TMUInterceptorContext.getAuthHeaders self = None
  /\ TMUInterceptorContext.apiKey
       (TMUInterceptorContext.setRequestHeader example_host self
          (lit "APIKEY") (lit "k2"))
     = Some (lit "k2").
Proof.
  intros self.
  assert (Hk : TMUInterceptorContext.apiKey self = Some [])
    by reflexivity.
  destruct (C9_empty_secret example_host self (or_introl Hk))
    as (Hnone & Hstore & _).
  split; [exact Hk|]. split; [exact Hnone|].
  apply Hstore; [exact Hk | reflexivity].
Defined.

(** ** The Aggregator *)

Section Aggregator.

Import TMUScheduleService.

Variable host : Host.

Lemma fetchWeek_records headers week w :
  fetchWeek host headers week w
  = (Return
       (week_records (fetch host (fetch_calls w) (scheduleUrl week) headers)),
     fetched 1 w).
Proof.
  unfold fetchWeek, try_catch, bind, FetchHttpClient.getJson.
  destruct (fetch host (fetch_calls w) (scheduleUrl week) headers)
    as [|[|] status [| |data]]; reflexivity.
Qed.

Lemma fetched_fetched a b w : fetched a (fetched b w) = fetched (a + b) w.
Proof. unfold fetched; simpl. f_equal. lia. Qed.

Lemma fetched_0 w : fetched 0 w = w.
Proof. by destruct w. Qed.

Lemma map_eff_fetchWeek headers weeks : forall w,
  map_eff (fetchWeek host headers) weeks w
  = (Return (List.map week_records
               (outcomes host headers (fetch_calls w) weeks)),
     fetched (length weeks) w).
Proof.
  induction weeks as [|week weeks IH]; intros w; simpl.
  - by rewrite fetched_0.
  - unfold bind. rewrite fetchWeek_records, IH, fetched_fetched. simpl.
    unfold ret. do 2 f_equal. lia.
Qed.

Lemma length_outcomes headers weeks : forall n,
  length (outcomes host headers n weeks) = length weeks.
Proof. induction weeks; intros n; simpl; [done | by rewrite IHweeks]. Qed.

(** The slots of [Promise.all] after the promises of [order] have
    settled. *)
Lemma Promise_all_slots {A} (values : list A) order : forall slots i,
  length slots = length values ->
  foldl (fun slots i =>
           match values !! i with
           | Some v => <[i := Some v]> slots
           | None => slots
           end) slots order !! i
  = if decide (i ∈ order /\ i < length values)%nat
    then Some (values !! i) else slots !! i.
Proof.
  induction order as [|j order IH]; intros slots i Hlen; cbn [foldl].
  { rewrite decide_False; [done|]. intros [H _]. by apply elem_of_nil in H. }
  destruct (values !! j) as [v|] eqn:Hj.
  - rewrite IH by (by rewrite length_insert).
    apply lookup_lt_Some in Hj as Hlt.
    destruct (decide (i ∈ order /\ i < length values)%nat) as [[Hin Hi]|Hnot].
    + rewrite decide_True; [done|]. split; [by right | done].
    + destruct (decide (j = i)) as [->|Hne].
      * rewrite list_lookup_insert_eq by lia.
        rewrite decide_True, Hj; [done|]. split; [by left | done].
      * rewrite list_lookup_insert_ne by done.
        rewrite decide_False; [done|]. intros [Hin Hi].
        apply elem_of_cons in Hin as [->|Hin]; tauto.
  - rewrite IH by done.
    apply lookup_ge_None in Hj.
    destruct (decide (i ∈ order /\ i < length values)%nat) as [[Hin Hi]|Hnot].
    + rewrite decide_True; [done|]. split; [by right | done].
    + rewrite decide_False; [done|]. intros [Hin Hi].
      apply elem_of_cons in Hin as [->|Hin]; [lia | tauto].
Qed.

(** Once every promise has settled, in whatever order, [Promise.all] is
    fulfilled with the values in the order of the array. *)
Lemma Promise_all_settled {A} (values : list A) order w :
  (forall i, i < length values -> i ∈ order)%nat ->
  Promise_all values order w = (Return values, w).
Proof.
  intros Hall. unfold Promise_all.
  match goal with
  | |- context [mapM id ?slots] =>
      assert (Hs : slots = Some <$> values)
  end.
  { apply list_eq. intros i.
    rewrite Promise_all_slots by (by rewrite length_replicate).
    rewrite list_lookup_fmap.
    destruct (decide (i < length values)%nat) as [Hi|Hi].
    - rewrite decide_True by (split; [by apply Hall | done]).
      by destruct (lookup_lt_is_Some_2 values i Hi) as [v ->].
    - rewrite decide_False by tauto.
      rewrite (proj2 (lookup_ge_None values i)) by lia.
      apply lookup_ge_None. rewrite length_replicate. lia. }
  rewrite Hs, (mapM_fmap_Some id Some values); done.
Qed.

(** As long as one promise has not settled, [Promise.all] is pending. *)
Lemma Promise_all_pending {A} (values : list A) order w i :
  (i < length values)%nat -> i ∉ order ->
  Promise_all values order w = (Pending, w).
Proof.
  intros Hi Hnot. unfold Promise_all.
  rewrite (mapM_None_2 id); [done|].
  apply Exists_exists. exists None. split; [|done].
  apply (list_elem_of_lookup_2 _ i).
  rewrite Promise_all_slots by (by rewrite length_replicate).
  rewrite decide_False by tauto. by apply lookup_replicate_2.
Qed.

(** C5. For every week list and every outcome of the fetches, if each
    fetch of a selected week settles at some point, in whatever order, the
    Aggregator returns (it does not throw, and shows nothing) the
    concatenation, in the order of the filtered week list, of what each
    week contributes: the records of its response when its fetch succeeded
    and nothing when it failed. *)
Theorem C5_failures_contribute_nothing :
  forall (context : TMUInterceptorContext.t)
         (currentTerm : WeekScheduleItem) (rest : list WeekScheduleItem)
         (headers : gmap (list N) (list N)) (w : World),
    TMUInterceptorContext.getWeeks context = Some (currentTerm :: rest) ->
    TMUInterceptorContext.getAuthHeaders context = Some headers ->
    let selected := termWeeks (currentTerm :: rest) currentTerm in
    (forall i, i < length selected -> i ∈ settle_order host)%nat ->
    loadCurrentTermSchedules host context w
    = (Return
         (concat
            (List.map week_records
               (outcomes host headers (fetch_calls w) selected))),
       fetched (length selected) w).
Proof.
  intros context currentTerm rest headers w Hweeks Hheaders selected Hall.
  unfold loadCurrentTermSchedules. rewrite Hweeks, Hheaders.
  fold selected. unfold bind.
  rewrite map_eff_fetchWeek, Promise_all_settled; [reflexivity|].
  intros i Hi. apply Hall.
  by rewrite length_map, length_outcomes in Hi.
Qed.

End Aggregator.
Lemma C5_failures_contribute_nothing_witness :
  TMUScheduleService.loadCurrentTermSchedules scenario3_host scenario3_context
    World0
  = (Return [lesson (lit "02/03/2026"); lesson (lit "16/03/2026")],
     fetched 3 World0).
Proof.
  assert (Hsettle :
    forall i,
      (i < length
             (TMUScheduleService.termWeeks
                [week 2 2025 27; week 2 2025 28; week 1 2025 5; week 2 2025 29]
                (week 2 2025 27)))%nat ->
      i ∈ settle_order scenario3_host).
  { intros i Hi. vm_compute in Hi.
    destruct i as [|[|[|i]]]; [set_solver..|lia]. }
  rewrite (C5_failures_contribute_nothing scenario3_host scenario3_context
             (week 2 2025 27)
             [week 2 2025 28; week 1 2025 5; week 2 2025 29]
             _ World0 eq_refl eq_refl Hsettle).
  vm_compute. reflexivity.
Defined.

(** ** Preconditions that are not met *)

Lemma emit_logged e w : emit e w = (Return tt, logged w [e]).
Proof. reflexivity. Qed.

Lemma logged_app w es1 es2 : logged (logged w es1) es2 = logged w (es1 ++ es2).
Proof. unfold logged. by rewrite foldl_app. Qed.

Lemma bind_emit {A} e (k : unit -> Eff A) w :
  bind (emit e) k w = k tt (logged w [e]).
Proof. reflexivity. Qed.

(** When mapping gives no event, the run ends after the notice; the
    serializer and the downloader are not called. *)
Lemma exportCurrentTerm_nothing loader mapper serializer downloader
    w schedules w1 w2 :
  loader (logged w [SetTextContent TMUExporterApp.working; SetDisabled true])
  = (Return schedules, w1) ->
  mapper schedules w1 = (Return [], w2) ->
  TMUExporterApp.exportCurrentTerm loader mapper serializer downloader w
  = (Return tt,
     logged w2 [Alert TMUExporterApp.nothingToExport;
                SetTextContent (lit "Export"); SetDisabled false]).
Proof.
  intros Hloader Hmapper. unfold TMUExporterApp.exportCurrentTerm.
  rewrite !bind_emit, logged_app. simpl app.
  unfold try_finally, try_catch, bind.
  rewrite Hloader, Hmapper. reflexivity.
Qed.

Lemma load_precondition host context w :
  TMUInterceptorContext.getWeeks context = None
  \/ TMUInterceptorContext.getWeeks context = Some []
  \/ TMUInterceptorContext.getAuthHeaders context = None ->
  TMUScheduleService.loadCurrentTermSchedules host context w
  = (Return [], logged w [Alert (precondition_alert context)]).
Proof.
  unfold TMUScheduleService.loadCurrentTermSchedules, precondition_alert.
  intros [H|[H|H]]; rewrite ?H; try reflexivity.
  by destruct (TMUInterceptorContext.getWeeks context) as [[|c r]|].
Qed.

(** C8. When the cached week list is unavailable or empty, or the
    credentials are unavailable, the Aggregator shows the notice of that
    precondition and returns the empty list (it does not throw).  When
    mapping gives no event, the Orchestrator, whatever its collaborators,
    shows the notice that there is nothing to export and restores the
    button, without calling the serializer or the file-save collaborator.
    So the application, in that state of the context, shows the two notices
    and saves no file. *)
Theorem C8_soft_noop :
  forall (host : Host) (context : TMUInterceptorContext.t) (w : World),
    TMUInterceptorContext.getWeeks context = None
    \/ TMUInterceptorContext.getWeeks context = Some []
    \/ TMUInterceptorContext.getAuthHeaders context = None ->
    TMUScheduleService.loadCurrentTermSchedules host context w
    = (Return [], logged w [Alert (precondition_alert context)])
    /\ (forall loader mapper serializer downloader schedules w1 w2,
           loader (logged w [SetTextContent TMUExporterApp.working;
                             SetDisabled true])
           = (Return schedules, w1) ->
           mapper schedules w1 = (Return [], w2) ->
           TMUExporterApp.exportCurrentTerm loader mapper serializer
             downloader w
           = (Return tt,
              logged w2 [Alert TMUExporterApp.nothingToExport;
                         SetTextContent (lit "Export"); SetDisabled false]))
    /\ TMUExporterApp.app host context w
       = (Return tt,
          logged w [SetTextContent TMUExporterApp.working;
                    SetDisabled true;
                    Alert (precondition_alert context);
                    Alert TMUExporterApp.nothingToExport;
                    SetTextContent (lit "Export");
                    SetDisabled false]).
Proof.
  intros host context w Hpre. split; [by apply load_precondition|]. split.
  - intros *. apply exportCurrentTerm_nothing.
  - unfold TMUExporterApp.app.
    set (w1 := logged w [SetTextContent TMUExporterApp.working;
                         SetDisabled true;
                         Alert (precondition_alert context)]).
    rewrite (exportCurrentTerm_nothing _ _ _ _ w [] w1 w1).
    + unfold w1. by rewrite logged_app.
    + rewrite load_precondition by done. unfold w1. by rewrite logged_app.
    + reflexivity.
Qed.

Lemma C8_soft_noop_witness :
  TMUScheduleService.loadCurrentTermSchedules example_host
    TMUInterceptorContext.new World0
  = (Return [],
     {| trace := [Alert TMUScheduleService.weeksNotLoaded];
        uid_calls := 0; fetch_calls := 0 |})
  /\ TMUExporterApp.app example_host TMUInterceptorContext.new World0
     = (Return tt,
        {| trace := [SetTextContent TMUExporterApp.working;
                     SetDisabled true;
                     Alert TMUScheduleService.weeksNotLoaded;
                     Alert TMUExporterApp.nothingToExport;
                     SetTextContent (lit "Export");
                     SetDisabled false];
           uid_calls := 0; fetch_calls := 0 |}).
Proof.
  destruct (C8_soft_noop example_host TMUInterceptorContext.new World0
              (or_introl eq_refl)) as (Hload & _ & Happ).
  split; [exact Hload | exact Happ].
Defined.

Lemma C10_single_period_dropped_witness :
  let item :=
    {| Date := lit "25/02/2026"; PeriodName := lit "5"; RoomID := lit "P101";
       CaHoc := lit "(10:15)"; ScheduleStudyUnitID := lit "LHP1";
       NumberOfPeriods := inl (JS.of_Z 1); ProfessorName := lit "GV";
       CurriculumName := lit "Math" |} in
  period_lookup item 0 = Some (mkPeriod 10 15 11 5)
  /\ TMUScheduleToEventMapper.toEvent example_host item World0
     = (Return None, World0).
Proof.
  intros item. split; [by vm_compute|].
  by destruct (C10_single_period_dropped example_host item World0 eq_refl)
    as (_ & _ & Hto & _).
Defined.
(** ** Numbers that name a period *)

Section PeriodKeys.

Import JS.
Local Open Scope Z_scope.

Lemma SFeqb_finite_eq y m e :
  SFeqb y (S754_finite false m e) = true -> y = S754_finite false m e.
Proof.
  unfold SFeqb, SFcompare.
  destruct y as [[]|[]| |[] m1 e1]; simpl; try discriminate.
  destruct (e1 ?= e)%Z eqn:He; try discriminate.
  apply Z.compare_eq in He as ->.
  destruct (Pos.compare_cont Eq m1 m) eqn:Hm; try discriminate.
  apply Pos.compare_eq in Hm as ->. reflexivity.
Qed.

(** A candidate converts back to the number it stands for. *)
Lemma candidate_sound m e n0 k s n :
  candidate m e n0 k = Some (s, n) ->
  exists s0,
    S754_finite false m e = round_decimal false s0 (n0 - k)
    /\ ((s = s0 /\ n = n0)
        \/ (s0 = 10 ^ k /\ s = 10 ^ (k - 1) /\ n = n0 + 1))%Z.
Proof.
  unfold candidate.
  set (num := (Z.pos m * 2 ^ Z.max e 0 * 10 ^ Z.max (k - n0) 0)%Z).
  set (den := (2 ^ Z.max (- e) 0 * 10 ^ Z.max (- (k - n0)) 0)%Z).
  set (lo := (num / den)%Z).
  set (choice := match (2 * (num mod den) ?= den)%Z with
                 | Lt => lo
                 | Gt => (lo + 1)%Z
                 | Eq => if Z.even lo then lo else (lo + 1)%Z
                 end).
  assert (Hnorm : forall s0,
    SFeqb (round_decimal false s0 (n0 - k)) (S754_finite false m e) = true ->
    Some (if (s0 =? 10 ^ k)%Z
          then ((10 ^ (k - 1))%Z, (n0 + 1)%Z) else (s0, n0)) = Some (s, n) ->
    exists s1,
      S754_finite false m e = round_decimal false s1 (n0 - k)
      /\ ((s = s1 /\ n = n0)
          \/ (s1 = 10 ^ k /\ s = 10 ^ (k - 1) /\ n = n0 + 1))%Z).
  { intros s0 Hok Hs. exists s0.
    split; [symmetry; by apply SFeqb_finite_eq|].
    destruct (s0 =? 10 ^ k)%Z eqn:H10; injection Hs as <- <-.
    - right. apply Z.eqb_eq in H10. auto.
    - left. auto. }
  destruct (SFeqb (round_decimal false lo (n0 - k)) _) eqn:Hlo;
    destruct (SFeqb (round_decimal false (lo + 1) (n0 - k)) _) eqn:Hhi;
    intros Hc; try discriminate.
  - fold choice in Hc. apply (Hnorm choice); [|exact Hc].
    unfold choice. destruct (_ ?= _)%Z; [destruct (Z.even lo)| |]; assumption.
  - by apply (Hnorm lo).
  - by apply (Hnorm (lo + 1)%Z).
Qed.

Lemma shortest_sound fuel m e n0 : forall k0 s n k,
  shortest fuel m e n0 k0 = Some (s, n, k) ->
  candidate m e n0 k = Some (s, n).
Proof.
  induction fuel as [|fuel IH]; intros k0 s n k; simpl; [discriminate|].
  destruct (candidate m e n0 k0) as [[s1 n1]|] eqn:Hc.
  - intros [= <- <- <-]. exact Hc.
  - apply IH.
Qed.

Lemma uint_codes_inj d1 : forall d2,
  uint_codes d1 = uint_codes d2 -> d1 = d2.
Proof.
  induction d1; intros d2; destruct d2; simpl; intros H;
    try discriminate; try reflexivity;
    injection H as H; f_equal; auto.
Qed.

Lemma decimal_digits_inj a b : decimal_digits a = decimal_digits b -> a = b.
Proof.
  intros H. by apply DecimalN.Unsigned.to_uint_inj, uint_codes_inj.
Qed.

Lemma uint_codes_digits d c : In c (uint_codes d) -> (48 <= c <= 57)%N.
Proof.
  induction d; simpl; intros H; try contradiction;
    destruct H as [<-|H]; auto; lia.
Qed.

Lemma pow10_cases k :
  (10 ^ k = 0 \/ (k = 0 /\ 10 ^ k = 1) \/ (k = 1 /\ 10 ^ k = 10)
   \/ 100 <= 10 ^ k)%Z.
Proof.
  destruct (Z.ltb_spec k 0) as [Hneg|Hpos].
  { left. by apply Z.pow_neg_r. }
  destruct (Z.eq_dec k 0) as [->|H0]; [right; left; done|].
  destruct (Z.eq_dec k 1) as [->|H1]; [right; right; left; done|].
  right; right; right.
  change 100%Z with (10 ^ 2)%Z. apply Z.pow_le_mono_r; lia.
Qed.

Lemma small_cases i :
  1 <= i <= 12 -> In i [1; 2; 3; 4; 5; 6; 7; 8; 9; 10; 11; 12].
Proof. simpl. lia. Qed.

Ltac each_small Hi :=
  apply small_cases in Hi; simpl in Hi;
  repeat (destruct Hi as [<-|Hi]); [..|contradiction].

Lemma not_a_digit c i :
  (c < 48 \/ 57 < c)%N -> ~ In c (decimal_digits (Z.to_N i)).
Proof. intros Hc Hin. apply uint_codes_digits in Hin. lia. Qed.

(** The text of a number of [s], [n], [k] is the numeral of a small
    integer only if [s * 10^(n-k)] is that integer. *)
Lemma format_small s n k i :
  1 <= i <= 12 ->
  format s n k = decimal_digits (Z.to_N i) ->
  (Z.to_N s = Z.to_N i /\ n = k)
  \/ (i = 10 /\ Z.to_N s = 1%N /\ n = k + 1).
Proof.
  intros Hi. unfold format.
  remember (decimal_digits (Z.to_N s)) as ds eqn:Hds.
  destruct ((k <=? n) && (n <=? 21)) eqn:HA.
  { apply andb_true_iff in HA as [Hkn _]. apply Z.leb_le in Hkn.
    unfold zeros. remember (Z.to_nat (n - k)) as z eqn:Hz.
    destruct z as [|[|z]]; simpl repeat; intros H.
    - rewrite app_nil_r in H. left. split; [|lia].
      apply decimal_digits_inj. congruence.
    - right. each_small Hi; vm_compute in H;
        destruct ds as [|a [|b [|c ds]]]; try discriminate.
      injection H as ->. split; [reflexivity|]. split; [|lia].
      apply decimal_digits_inj. by rewrite <- Hds.
    - exfalso. each_small Hi; vm_compute in H;
        destruct ds as [|a [|b [|c ds]]]; discriminate. }
  destruct ((0 <? n) && (n <=? 21)) eqn:HB.
  { intros H. exfalso. apply (not_a_digit 46 i); [lia|].
    rewrite <- H. apply in_or_app. right. by left. }
  destruct ((-6 <? n) && (n <=? 0)) eqn:HC.
  { intros H. exfalso. apply (not_a_digit 46 i); [lia|].
    rewrite <- H. right. by left. }
  destruct ds as [|d [|d' ds]]; intros H; exfalso.
  - each_small Hi; discriminate.
  - apply (not_a_digit 101 i); [lia|]. rewrite <- H. right. by left.
  - apply (not_a_digit 46 i); [lia|]. rewrite <- H. right. by left.
Qed.

(** The only number whose text is the numeral of an integer from 1 to 12
    is that integer. *)
Lemma Number_toString_small x i :
  1 <= i <= 12 ->
  Number_toString x = decimal_digits (Z.to_N i) -> x = of_Z i.
Proof.
  intros Hi H.
  destruct x as [sg|sg| |sg m e].
  - exfalso. each_small Hi; discriminate.
  - exfalso. each_small Hi; destruct sg; discriminate.
  - exfalso. each_small Hi; discriminate.
  - unfold Number_toString in H.
    destruct (shortest 17 m e (decade m e) 1) as [[[s n] k]|] eqn:Hs;
      [|exfalso; each_small Hi; discriminate].
    destruct sg.
    { exfalso. apply (not_a_digit 45 i); [lia|]. rewrite <- H. by left. }
    change (lit "" ++ format s n k) with (format s n k) in H.
    apply shortest_sound, candidate_sound in Hs as (s0 & -> & Hs0).
    apply (format_small _ _ _ _ Hi) in H.
    destruct H as [[Hs Hn]|(-> & Hs & Hn)];
      destruct Hs0 as [[-> Hn0]|(-> & Hp & Hn0)].
    + replace (decade m e - k) with 0 by lia.
      replace s0 with i by lia.
      each_small Hi; vm_compute; reflexivity.
    + replace (decade m e - k) with (-1) by lia.
      destruct (pow10_cases (k - 1)) as [H0|[[Hk H1]|[[Hk H1]|H100]]];
        [lia| | |lia].
      * replace k with 1 by lia. replace i with 1 by lia.
        vm_compute. reflexivity.
      * replace k with 2 by lia. replace i with 10 by lia.
        vm_compute. reflexivity.
    + replace (decade m e - k) with 1 by lia.
      replace s0 with 1 by lia. vm_compute. reflexivity.
    + destruct (pow10_cases (k - 1)) as [H0|[[Hk H1]|[[Hk H1]|H100]]];
        [lia| |lia|lia].
      replace (decade m e - k) with 0 by lia. replace k with 1 by lia.
      vm_compute. reflexivity.
Qed.

End PeriodKeys.

(** ** Start before end *)

Section StartBeforeEnd.

(** A successful lookup names an entry of the literal by its number. *)
Lemma PERIOD_TIME_lookup_number x p :
  PERIOD_TIME !! JS.Number_toString x = Some p ->
  exists i, In (i, p) PERIOD_TIME_literal /\ x = JS.of_Z i.
Proof.
  intros H. unfold PERIOD_TIME in H.
  apply elem_of_list_to_map_2, list_elem_of_In, in_map_iff in H
    as ([i q] & Heq & Hin).
  simpl in Heq. injection Heq as Hkey <-.
  exists i. split; [exact Hin|].
  assert (Hi : (1 <= i <= 12)%Z).
  { clear Hkey. simpl in Hin.
    repeat (destruct Hin as [[= <- _]|Hin]; [lia|]). contradiction. }
  apply Number_toString_small; [exact Hi|].
  rewrite <- Hkey. clear - Hi. apply small_cases in Hi. simpl in Hi.
  repeat (destruct Hi as [<-|Hi]; [vm_compute; reflexivity|]).
  contradiction.
Qed.

Lemma str_ltb_prefix p a b : JS.str_ltb (p ++ a) (p ++ b) = JS.str_ltb a b.
Proof.
  induction p as [|c p IH]; simpl; [reflexivity|].
  by rewrite N.ltb_irrefl, N.eqb_refl, IH.
Qed.

(** C6 (amended). For every raw record whose event is produced (so that
    both period-table lookups succeed) and whose start period index is not
    greater than its end period index, the start timestamp of the event is
    before its end timestamp. *)
Theorem C6_start_before_end_ordered :
  forall (host : Host) (item : TMUScheduleItem) (w w' : World)
         (e : CalendarEvent) (sp ep : spec_float),
    toEvent host item w = (Return (Some e), w') ->
    period_component item 0 = Some sp ->
    period_component item 1 = Some ep ->
    JS.le sp ep = true ->
    JS.str_ltb (start e) (end_ e) = true.
Proof.
  intros host item w w' e sp ep Hto Hsp Hep Hle.
  destruct (toEvent_cases host item w) as [[_ Hno]|[_ (e' & He & Hyes)]];
    [congruence|].
  assert (e' = e) as -> by congruence.
  destruct He as (d & m & y & st & et & room & _ & _ & _ & Hst & Het
                  & _ & _ & _ & _ & _ & -> & ->).
  unfold period_lookup in Hst, Het. rewrite Hsp in Hst. rewrite Hep in Het.
  apply PERIOD_TIME_lookup_number in Hst as (i & Hi & ->).
  apply PERIOD_TIME_lookup_number in Het as (j & Hj & ->).
  unfold DateUtils.toICSDate. rewrite !str_ltb_prefix.
  clear - Hi Hj Hle. simpl in Hi, Hj.
  repeat (destruct Hi as [[= <- <-]|Hi]); try contradiction;
    repeat (destruct Hj as [[= <- <-]|Hj]); try contradiction;
    first [ by vm_compute | by vm_compute in Hle ].
Qed.

End StartBeforeEnd.

(** A period range that runs backwards gives an event that ends before it
    starts. *)
Lemma C6_reversed_range : ~ start_before_end.
Proof.
  intros H.
  assert (Hto : toEvent example_host reversed_item World0
                = (Return (Some reversed_event), drawn 1 World0))
    by (vm_compute; reflexivity).
  apply H in Hto; [|by vm_compute; eexists..].
  revert Hto. vm_compute. discriminate.
Qed.

Lemma C6_start_before_end_ordered_witness :
  let item := scenario1 (lit "(07:00)") (lit "LHP1") (inl (JS.of_Z 3))
                (lit "GV") (lit "Math") in
  exists e,
    toEvent example_host item World0 = (Return (Some e), drawn 1 World0)
    /\ start e = lit "20260225T063000"
    /\ end_ e = lit "20260225T091000"
    /\ JS.str_ltb (start e) (end_ e) = true.
Proof.
  intros item.
  destruct (toEvent example_host item World0) as [[[e|]| |] w'] eqn:Hto;
    try (exfalso; revert Hto; vm_compute; discriminate).
  assert (Hlt :=
    C6_start_before_end_ordered example_host item World0 w' e
      (JS.of_Z 1) (JS.of_Z 3) Hto ltac:(by vm_compute) ltac:(by vm_compute)
      eq_refl).
  exists e. revert Hto. vm_compute. intros [= <- <-].
  repeat split; reflexivity.
Defined.

(** * Further properties of the code *)

(** ** The serializer *)

Lemma line_feeds_app s t : line_feeds (s ++ t) = (line_feeds s + line_feeds t)%nat.
Proof. apply count_occ_app. Qed.

Lemma line_feeds_escape_char c : line_feeds (escape_char c) = 0%nat.
Proof.
  unfold escape_char.
  destruct (c =? 0x5C) eqn:H1; [reflexivity|].
  destruct (c =? 0x0A) eqn:H2; [reflexivity|].
  destruct (c =? 0x2C) eqn:H3; [reflexivity|].
  destruct (c =? 0x3B) eqn:H4; [reflexivity|].
  unfold line_feeds. simpl. apply N.eqb_neq in H2.
  by destruct (N.eq_dec c 10).
Qed.

(** X1. An escaped text contains no line feed: a free-text field cannot
    break the line it is written on. *)
Theorem escapeText_no_line_feed :
  forall s : jsstring, line_feeds (IcsCalendarSerializer.escapeText s) = 0%nat.
Proof.
  intros s. rewrite escapeText_one_pass.
  induction s as [|c s IH]; [reflexivity|].
  simpl flat_map. by rewrite line_feeds_app, line_feeds_escape_char, IH.
Qed.

(** X2. [escapeText] is injective: two different texts never have the
    same escape. *)
Theorem escapeText_injective :
  forall s t : jsstring,
    IcsCalendarSerializer.escapeText s = IcsCalendarSerializer.escapeText t ->
    s = t.
Proof.
  intros s t H.
  rewrite <- (unescape_escape_chars s), <- (unescape_escape_chars t).
  by rewrite <- !escapeText_one_pass, H.
Qed.

Lemma escapeText_injective_witness :
  IcsCalendarSerializer.escapeText (lit "a,b;c") = lit "a\,b\;c"
  /\ lit "a,b;c" = lit "a,b;c".
Proof.
  split; [reflexivity|].
  exact (escapeText_injective (lit "a,b;c") (lit "a,b;c") eq_refl).
Defined.

(** X3. The block of an event has nine line feeds of its own; beyond
    them it has only those of the identifier and of the two timestamps,
    which are written as they are (the start twice, as stamp and as
    start).  Title,
    location and description add none. *)
Theorem serializeEvent_line_feeds :
  forall e : CalendarEvent,
    line_feeds (IcsCalendarSerializer.serializeEvent e)
    = (9 + line_feeds (uid e) + 2 * line_feeds (start e)
       + line_feeds (end_ e))%nat.
Proof.
  intros e. unfold IcsCalendarSerializer.serializeEvent,
    IcsCalendarSerializer.line.
  rewrite !line_feeds_app, !escapeText_no_line_feed.
  change (line_feeds IcsCalendarSerializer.TZID) with 0%nat.
  change (line_feeds [10]) with 1%nat.
  change (line_feeds (lit "BEGIN:VEVENT")) with 0%nat.
  change (line_feeds (lit "UID:")) with 0%nat.
  change (line_feeds (lit "DTSTAMP:")) with 0%nat.
  change (line_feeds (lit "DTSTART;TZID=")) with 0%nat.
  change (line_feeds (lit "DTEND;TZID=")) with 0%nat.
  change (line_feeds (lit ":")) with 0%nat.
  change (line_feeds (lit "SUMMARY:")) with 0%nat.
  change (line_feeds (lit "LOCATION:")) with 0%nat.
  change (line_feeds (lit "DESCRIPTION:")) with 0%nat.
  change (line_feeds (lit "END:VEVENT")) with 0%nat.
  lia.
Qed.

Lemma join_empty_separator l : JS.join l [] = concat l.
Proof.
  induction l as [|s [|t l] IH]; [reflexivity| |].
  - simpl. by rewrite app_nil_r.
  - change (JS.join (s :: t :: l) []) with (s ++ [] ++ JS.join (t :: l) []).
    by rewrite IH.
Qed.

(** X4. The calendar of two lists of events, one after the other, is the
    header, the blocks of the first list, the blocks of the second and
    the closing marker: every event gives its own block, in order, and
    the calendar of no event is the header and the closing marker. *)
Theorem serialize_app :
  forall es1 es2 : list CalendarEvent,
    IcsCalendarSerializer.serialize (es1 ++ es2)
    = IcsCalendarSerializer.header
      ++ concat (List.map IcsCalendarSerializer.serializeEvent es1)
      ++ concat (List.map IcsCalendarSerializer.serializeEvent es2)
      ++ lit "END:VCALENDAR"
    /\ IcsCalendarSerializer.serialize []
       = IcsCalendarSerializer.header ++ lit "END:VCALENDAR".
Proof.
  intros es1 es2. split; [|reflexivity].
  unfold IcsCalendarSerializer.serialize.
  rewrite join_empty_separator, List.map_app, concat_app.
  by rewrite <- !app_assoc.
Qed.

(** ** The interceptor *)

Lemma startsWith_spec p : forall s,
  JS.startsWith p s = true <-> exists post, s = p ++ post.
Proof.
  induction p as [|a p IH]; intros s; simpl.
  { split; [intros _; by exists s | done]. }
  destruct s as [|b s].
  { split; [done | intros [post H]; discriminate]. }
  rewrite andb_true_iff, N.eqb_eq, IH. split.
  - intros [-> [post ->]]. by exists post.
  - intros [post [= -> ->]]. split; [done | by exists post].
Qed.

Lemma includes_spec p : forall s,
  JS.includes s p = true <-> exists pre post, s = pre ++ p ++ post.
Proof.
  induction s as [|a s IH].
  - simpl. rewrite orb_false_r, startsWith_spec. split.
    + intros [post H]. by exists [], post.
    + intros (pre & post & H). symmetry in H.
      apply app_eq_nil in H as [-> H]. by exists post.
  - change (JS.includes (a :: s) p)
      with (JS.startsWith p (a :: s) || JS.includes s p).
    rewrite orb_true_iff, startsWith_spec, IH. split.
    + intros [[post H]|(pre & post & ->)].
      * by exists [], post.
      * by exists (a :: pre), post.
    + intros ([|b pre] & post & H).
      * left. by exists post.
      * right. injection H as -> ->. by exists pre, post.
Qed.

(** X5. Opening a request and sending it adds the load listener exactly
    when the URL contains "/WeekSchedule" (anywhere in it, in this letter
    case); otherwise the request object is left without it. *)
Theorem send_attaches_listener_iff :
  forall (xhr : XHR) (method url : jsstring),
    let sent := xhr_send (xhr_open xhr method url) in
    (weekListeners sent = S (weekListeners xhr)
     <-> exists pre post, url = pre ++ lit "/WeekSchedule" ++ post)
    /\ (weekListeners sent = weekListeners xhr
        <-> ~ exists pre post, url = pre ++ lit "/WeekSchedule" ++ post).
Proof.
  intros xhr method url sent. unfold sent, xhr_send, xhr_open. simpl.
  unfold TMUInterceptorContext.listens.
  rewrite <- (includes_spec (lit "/WeekSchedule") url).
  destruct (JS.includes url (lit "/WeekSchedule")); simpl; split; split;
    try done; try lia; intros H; by destruct H.
Qed.


Section Credentials.

Import TMUInterceptorContext.

Variable host : Host.

Lemma getAuthHeaders_fields self self' :
  apiKey self' = apiKey self -> authorization self' = authorization self ->
  getAuthHeaders self' = getAuthHeaders self.
Proof. unfold getAuthHeaders. by intros -> ->. Qed.

(** X7. [getAuthHeaders] gives headers exactly when both secrets are
    captured and non-empty, and then the headers are the two secrets as
    captured, [clientid: tmu], and nothing else: never a part of them. *)
Theorem getAuthHeaders_complete :
  forall self : t,
    (getAuthHeaders self = None
     <-> not_string (apiKey self) = true
         \/ not_string (authorization self) = true)
    /\ (forall h : gmap (list N) (list N),
           getAuthHeaders self = Some h ->
           h !! lit "apikey" = apiKey self
           /\ h !! lit "authorization" = authorization self
           /\ h !! lit "clientid" = Some (lit "tmu")
           /\ forall k, k <> lit "apikey" -> k <> lit "authorization" ->
                        k <> lit "clientid" -> h !! k = None).
Proof.
  intros self. unfold getAuthHeaders.
  destruct (apiKey self) as [[|c k]|], (authorization self) as [[|c' a]|];
    cbn [not_string orb default];
    (split; [split; [intros H; try done; auto | intros [?|?]; done]|]);
    try done.
  intros h Hh. apply (inj Some) in Hh. subst h.
  split; [by rewrite lookup_insert_eq|].
  split; [by rewrite lookup_insert_ne, lookup_insert_eq|].
  split; [by rewrite lookup_insert_ne, lookup_insert_ne, lookup_insert_eq|].
  intros k' H1 H2 H3.
  by rewrite lookup_insert_ne, lookup_insert_ne, lookup_insert_ne,
    lookup_empty.
Qed.

(** X8. Once [getAuthHeaders] gives headers, it gives the same headers
    after any headers the page sets later: captured credentials are never
    refreshed. *)
Theorem getAuthHeaders_frozen :
  forall (self : t) (h : gmap (list N) (list N))
         (later : list (jsstring * jsstring)),
    getAuthHeaders self = Some h ->
    getAuthHeaders (setRequestHeaders host self later) = Some h.
Proof.
  intros self h later Hh. rewrite <- Hh.
  assert (not_string (apiKey self) = false
          /\ not_string (authorization self) = false) as [Hk Ha].
  { unfold getAuthHeaders in Hh.
    destruct (not_string (apiKey self)), (not_string (authorization self));
      done. }
  apply getAuthHeaders_fields.
  - rewrite (capture_fold host apiKey (lit "apikey")
               (setRequestHeader_apiKey host)). by rewrite Hk.
  - rewrite (capture_fold host authorization (lit "authorization")
               (setRequestHeader_authorization host)). by rewrite Ha.
Qed.

Lemma setRequestHeader_cachedWeeks self key value :
  cachedWeeks (setRequestHeader host self key value) = cachedWeeks self.
Proof.
  unfold setRequestHeader.
  destruct (not_string (apiKey self) && _); simpl;
    match goal with
    | |- context [if ?b then _ else _] => destruct b
    end; reflexivity.
Qed.

Lemma setRequestHeader_other self key value :
  other_header host (key, value) ->
  setRequestHeader host self key value = self.
Proof.
  intros [Hk Ha]. unfold setRequestHeader, JS.str_eqb. simpl in Hk, Ha.
  rewrite !bool_decide_eq_false_2 by done. by rewrite !andb_false_r.
Qed.

(** X9. Setting headers never touches the week cache, and headers whose
    lower-cased names are neither [apikey] nor [authorization] leave the
    whole context as it is. *)
Theorem setRequestHeaders_other_headers :
  forall (self : t) (hs : list (jsstring * jsstring)),
    cachedWeeks (setRequestHeaders host self hs) = cachedWeeks self
    /\ (Forall (other_header host) hs -> setRequestHeaders host self hs = self).
Proof.
  intros self hs. unfold setRequestHeaders. split.
  - revert self. induction hs as [|[key value] hs IH]; intros self; simpl;
      [done|]. by rewrite IH, setRequestHeader_cachedWeeks.
  - intros Hall. revert self.
    induction Hall as [|[key value] hs Hh _ IH]; intros self; simpl; [done|].
    by rewrite setRequestHeader_other, IH.
Qed.

End Credentials.

Lemma getAuthHeaders_frozen_witness :
  TMUInterceptorContext.getAuthHeaders
    (TMUInterceptorContext.setRequestHeaders example_host scenario3_context
       [(lit "Authorization", lit "Bearer newer"); (lit "apikey", lit "k2")])
  = TMUInterceptorContext.getAuthHeaders scenario3_context.
Proof.
  exact (getAuthHeaders_frozen example_host scenario3_context _ _ eq_refl).
Defined.

Lemma getAuthHeaders_complete_witness :
  exists h,
    TMUInterceptorContext.getAuthHeaders scenario3_context = Some h
    /\ h !! lit "apikey" = Some (lit "key")
    /\ h !! lit "authorization" = Some (lit "Bearer token")
    /\ h !! lit "clientid" = Some (lit "tmu").
Proof.
  eexists. split; [reflexivity|].
  destruct (getAuthHeaders_complete scenario3_context) as [_ H].
  destruct (H _ eq_refl) as (Hk & Ha & Hc & _). auto.
Defined.

Lemma setRequestHeaders_other_headers_witness :
  TMUInterceptorContext.setRequestHeaders example_host scenario3_context
    [(lit "Content-Type", lit "application/json"); (lit "ClientID", lit "tmu")]
  = scenario3_context.
Proof.
  apply (setRequestHeaders_other_headers example_host scenario3_context).
  repeat constructor; by vm_compute.
Defined.

(** ** The HTTP client *)

(** X10. [getJson] makes one fetch and shows nothing.  It returns a value
    exactly when the response is ok and its body is JSON; a response that
    is not ok makes it throw the error "HTTP <status> when GET <url>"
    whatever the body is; it is never left pending. *)
Theorem getJson_outcomes :
  forall (host : Host) (url : jsstring) (headers : gmap (list N) (list N))
         (w : World),
    let result := FetchHttpClient.getJson host url headers w in
    result.2 = fetched 1 w
    /\ result.1 <> Pending
    /\ ((exists v, result.1 = Return v)
        <-> exists status body,
              fetch host (fetch_calls w) url headers
              = Response true status body
              /\ body <> InvalidJson)
    /\ (forall status body,
           fetch host (fetch_calls w) url headers
           = Response false status body ->
           result.1
           = Throw (Error (lit "HTTP " ++ JS.Number_toString status
                           ++ lit " when GET " ++ url))).
Proof.
  intros host url headers w. unfold FetchHttpClient.getJson. cbv zeta.
  destruct (fetch host (fetch_calls w) url headers)
    as [|[|] status [| |data]]; cbn [negb fst snd];
    (split; [reflexivity|]); (split; [discriminate|]);
    (split; [|intros ? ? ?; congruence]);
    (split;
     [ intros [v Hv];
       first [ discriminate Hv
             | eexists _, _; split; [reflexivity | discriminate] ]
     | intros (st & b & Ho & Hb);
       first [ discriminate Ho
             | by eexists
             | injection Ho as <- <-; by destruct Hb ] ]).
Qed.

Lemma getJson_outcomes_witness :
  (FetchHttpClient.getJson scenario3_host (lit "u") ∅ (fetched 1 World0)).1
  = Throw (Error (lit "HTTP 500 when GET u")).
Proof.
  destruct (getJson_outcomes scenario3_host (lit "u") ∅ (fetched 1 World0))
    as (_ & _ & _ & Herr).
  exact (Herr (JS.of_Z 500) InvalidJson eq_refl).
Defined.

(** ** The orchestrator *)

Lemma logged_trace w es : trace (logged w es) = trace w ++ es.
Proof.
  revert w. induction es as [|e es IH]; intros w; simpl.
  - by rewrite app_nil_r.
  - rewrite IH. simpl. by rewrite <- app_assoc.
Qed.

Lemma try_body_restored (body : Eff unit) w :
  let result :=
    try_finally
      (try_catch body
         (fun err =>
            let* _ := emit (ConsoleError err) in
            emit (Alert TMUExporterApp.exportFailed)))
      (let* _ := emit (SetTextContent (lit "Export")) in
       emit (SetDisabled false)) w in
  match body w with
  | (Return _, w1) => result = (Return tt, logged w1 restored)
  | (Throw err, w1) =>
      result = (Return tt, logged w1 (failure_notice err ++ restored))
  | (Pending, w1) => result = (Pending, w1)
  end.
Proof.
  unfold try_finally, try_catch. cbv zeta.
  by destruct (body w) as [[[]|err|] w1].
Qed.

(** X11. Whatever its four collaborators do, [exportCurrentTerm] never
    throws; and unless it is left pending, it ends by restoring the
    button: the last two effects set its text to "Export" and enable
    it. *)
Theorem exportCurrentTerm_restores_button :
  forall (loader : Eff (list TMUScheduleItem))
         (mapper : list TMUScheduleItem -> Eff (list CalendarEvent))
         (serializer : list CalendarEvent -> Eff jsstring)
         (downloader : jsstring -> jsstring -> jsstring -> Eff unit)
         (w : World),
    let result :=
      TMUExporterApp.exportCurrentTerm loader mapper serializer downloader w in
    result.1 = Pending
    \/ (result.1 = Return tt
        /\ exists shown, trace result.2 = shown ++ restored).
Proof.
  intros loader mapper serializer downloader w.
  unfold TMUExporterApp.exportCurrentTerm. rewrite !bind_emit.
  match goal with
  | |- context [try_finally (try_catch ?body _) _ ?w0] =>
      pose proof (try_body_restored body w0) as H;
      destruct (body w0) as [[[]|err|] w1]
  end; cbv zeta in *; rewrite H; cbn [fst snd].
  - right. split; [done|]. rewrite logged_trace. by eexists.
  - right. split; [done|]. rewrite logged_trace, app_assoc. by eexists.
  - by left.
Qed.

(** X12. If a collaborator throws, the run ends normally: the error goes
    to the console, the notice of a failed export is shown and the button
    is restored.  The serializer and the downloader are reached only with
    at least one event. *)
Theorem exportCurrentTerm_reports_failure :
  forall (loader : Eff (list TMUScheduleItem))
         (mapper : list TMUScheduleItem -> Eff (list CalendarEvent))
         (serializer : list CalendarEvent -> Eff jsstring)
         (downloader : jsstring -> jsstring -> jsstring -> Eff unit)
         (w : World) (err : exn),
    let run :=
      TMUExporterApp.exportCurrentTerm loader mapper serializer downloader w in
    let failed w' := (Return tt, logged w' (failure_notice err ++ restored)) in
    (forall w1, loader (logged w busy) = (Throw err, w1) -> run = failed w1)
    /\ (forall schedules w1 w2,
           loader (logged w busy) = (Return schedules, w1) ->
           mapper schedules w1 = (Throw err, w2) -> run = failed w2)
    /\ (forall schedules events w1 w2 w3,
           loader (logged w busy) = (Return schedules, w1) ->
           mapper schedules w1 = (Return events, w2) ->
           events <> [] ->
           serializer events w2 = (Throw err, w3) -> run = failed w3)
    /\ (forall schedules events ics w1 w2 w3 w4,
           loader (logged w busy) = (Return schedules, w1) ->
           mapper schedules w1 = (Return events, w2) ->
           events <> [] ->
           serializer events w2 = (Return ics, w3) ->
           downloader export_filename export_mime ics w3 = (Throw err, w4) ->
           run = failed w4).
Proof.
  intros loader mapper serializer downloader w err run failed.
  unfold run, failed, TMUExporterApp.exportCurrentTerm.
  rewrite !bind_emit.
  change (logged (logged w [SetTextContent TMUExporterApp.working])
            [SetDisabled true]) with (logged w busy).
  repeat split.
  - intros w1 Hl.
    match goal with
    | |- context [try_finally (try_catch ?body _) _ ?w0] =>
        pose proof (try_body_restored body w0) as H
    end.
    unfold bind in H. rewrite Hl in H. exact H.
  - intros schedules w1 w2 Hl Hm.
    match goal with
    | |- context [try_finally (try_catch ?body _) _ ?w0] =>
        pose proof (try_body_restored body w0) as H
    end.
    unfold bind in H. rewrite Hl, Hm in H. exact H.
  - intros schedules [|e events] w1 w2 w3 Hl Hm Hne Hs; [done|].
    match goal with
    | |- context [try_finally (try_catch ?body _) _ ?w0] =>
        pose proof (try_body_restored body w0) as H
    end.
    unfold bind in H. rewrite Hl, Hm in H. cbn [length Nat.eqb] in H.
    rewrite Hs in H.
    exact H.
  - intros schedules [|e events] ics w1 w2 w3 w4 Hl Hm Hne Hs Hd; [done|].
    match goal with
    | |- context [try_finally (try_catch ?body _) _ ?w0] =>
        pose proof (try_body_restored body w0) as H
    end.
    unfold bind in H. rewrite Hl, Hm in H. cbn [length Nat.eqb] in H.
    rewrite Hs in H.
    unfold export_filename, export_mime in Hd. rewrite Hd in H.
    exact H.
Qed.

Lemma exportCurrentTerm_reports_failure_witness :
  TMUExporterApp.app failing_save_host scenario3_context World0
  = (Return tt,
     {| trace := busy ++ failure_notice TypeError ++ restored;
        uid_calls := 2; fetch_calls := 3 |}).
Proof.
  destruct (exportCurrentTerm_reports_failure
              (TMUScheduleService.loadCurrentTermSchedules failing_save_host
                 scenario3_context)
              (TMUScheduleToEventMapper.map failing_save_host)
              (fun events => ret (IcsCalendarSerializer.serialize events))
              (BrowserFileDownloader.downloadTextFile failing_save_host)
              World0 TypeError) as (_ & _ & _ & Hsave).
  unfold TMUExporterApp.app.
  rewrite (Hsave [lesson (lit "02/03/2026"); lesson (lit "16/03/2026")]
             scenario3_events
             (IcsCalendarSerializer.serialize scenario3_events)
             (fetched 3 (logged World0 busy))
             (drawn 2 (fetched 3 (logged World0 busy)))
             (drawn 2 (fetched 3 (logged World0 busy)))
             (drawn 2 (fetched 3 (logged World0 busy))));
    try (vm_compute; reflexivity).
  discriminate.
Defined.

(** X13. For the application as it is wired: when the schedules are
    loaded and the Mapper gives at least one event, the run saves one
    file, named "tmu-current-term.ics", of type
    "text/calendar;charset=utf-8;", whose content is the calendar of
    these events, and restores the button; if the browser's save fails,
    it reports a failed export instead. *)
Theorem app_saves_calendar :
  forall (host : Host) (context : TMUInterceptorContext.t) (w w1 w2 : World)
         (schedules : list TMUScheduleItem) (events : list CalendarEvent),
    TMUScheduleService.loadCurrentTermSchedules host context (logged w busy)
    = (Return schedules, w1) ->
    TMUScheduleToEventMapper.map host schedules w1 = (Return events, w2) ->
    events <> [] ->
    let ics := IcsCalendarSerializer.serialize events in
    TMUExporterApp.app host context w
    = (Return tt,
       logged w2
         ((if save_ok host export_filename export_mime ics
           then [SaveFile export_filename export_mime ics]
           else failure_notice TypeError) ++ restored)).
Proof.
  intros host context w w1 w2 schedules [|e events] Hload Hmap Hne ics;
    [done|].
  unfold TMUExporterApp.app, TMUExporterApp.exportCurrentTerm.
  rewrite !bind_emit.
  change (logged (logged w [SetTextContent TMUExporterApp.working])
            [SetDisabled true]) with (logged w busy).
  match goal with
  | |- context [try_finally (try_catch ?body _) _ ?w0] =>
      pose proof (try_body_restored body w0) as H
  end.
  unfold bind in H. rewrite Hload, Hmap in H. cbn [length Nat.eqb] in H.
  unfold ret, BrowserFileDownloader.downloadTextFile in H.
  fold ics export_filename export_mime in H.
  destruct (save_ok host export_filename export_mime ics); exact H.
Qed.

Lemma app_saves_calendar_witness :
  TMUExporterApp.app scenario3_host scenario3_context World0
  = (Return tt,
     {| trace :=
          busy
          ++ [SaveFile export_filename export_mime
                (IcsCalendarSerializer.serialize scenario3_events)]
          ++ restored;
        uid_calls := 2; fetch_calls := 3 |}).
Proof.
  rewrite (app_saves_calendar scenario3_host scenario3_context World0
             (fetched 3 (logged World0 busy))
             (drawn 2 (fetched 3 (logged World0 busy)))
             [lesson (lit "02/03/2026"); lesson (lit "16/03/2026")]
             scenario3_events);
    try (vm_compute; reflexivity).
  discriminate.
Defined.

(** X14. For the application as it is wired: as long as the fetch of one
    selected week has not settled, the Aggregator is pending, and so is
    the run; the button has been disabled and nothing has restored it,
    and no notice is shown. *)
Theorem app_pending_with_fetch :
  forall (host : Host) (context : TMUInterceptorContext.t)
         (currentTerm : WeekScheduleItem) (rest : list WeekScheduleItem)
         (headers : gmap (list N) (list N)) (w : World) (i : nat),
    TMUInterceptorContext.getWeeks context = Some (currentTerm :: rest) ->
    TMUInterceptorContext.getAuthHeaders context = Some headers ->
    let selected :=
      TMUScheduleService.termWeeks (currentTerm :: rest) currentTerm in
    (i < length selected)%nat ->
    i ∉ settle_order host ->
    TMUScheduleService.loadCurrentTermSchedules host context w
    = (Pending, fetched (length selected) w)
    /\ TMUExporterApp.app host context w
       = (Pending, fetched (length selected) (logged w busy)).
Proof.
  intros host context currentTerm rest headers w i Hweeks Hheaders selected
    Hi Hnot.
  assert (Hload : forall w0,
    TMUScheduleService.loadCurrentTermSchedules host context w0
    = (Pending, fetched (length selected) w0)).
  { intros w0. unfold TMUScheduleService.loadCurrentTermSchedules.
    rewrite Hweeks, Hheaders. fold selected. unfold bind.
    rewrite map_eff_fetchWeek.
    rewrite (Promise_all_pending _ _ _ i); [reflexivity| |exact Hnot].
    by rewrite length_map, length_outcomes. }
  split; [apply Hload|].
  unfold TMUExporterApp.app, TMUExporterApp.exportCurrentTerm.
  rewrite !bind_emit.
  change (logged (logged w [SetTextContent TMUExporterApp.working])
            [SetDisabled true]) with (logged w busy).
  match goal with
  | |- context [try_finally (try_catch ?body _) _ ?w0] =>
      pose proof (try_body_restored body w0) as H
  end.
  unfold bind in H. rewrite Hload in H. exact H.
Qed.

Lemma app_pending_with_fetch_witness :
  TMUExporterApp.app hanging_host scenario3_context World0
  = (Pending,
     {| trace := busy; uid_calls := 0; fetch_calls := 3 |}).
Proof.
  destruct (app_pending_with_fetch hanging_host scenario3_context
              (week 2 2025 27)
              [week 2 2025 28; week 1 2025 5; week 2 2025 29]
              _ World0 2 eq_refl eq_refl) as [_ Happ].
  - vm_compute. lia.
  - intros Hin. repeat (apply elem_of_cons in Hin as [Hin|Hin]; [lia|]).
    by apply elem_of_nil in Hin.
  - rewrite Happ. vm_compute. reflexivity.
Defined.

(** ** Numbers and their texts, on the ranges of a calendar *)

Section Calendar.

Local Open Scope Z_scope.

Lemma below_In n z : 0 <= z < n -> In z (below n).
Proof.
  intros Hz. unfold below. apply in_map_iff. exists (Z.to_nat z).
  split; [lia|]. apply in_seq. lia.
Qed.

(** The period table is the table of clock times. *)
Lemma PERIOD_TIME_literal_clocks :
  PERIOD_TIME_literal
  = List.map (fun c => (c.1.1, mkPeriod c.1.2.1 c.1.2.2 c.2.1 c.2.2))
      period_clocks.
Proof. reflexivity. Qed.

(** The text of an integer from 0 to 9999 is its decimal numeral, and
    such a number is truthy unless it is 0. *)
Lemma small_integers_checked :
  forallb
    (fun n =>
       bool_decide (JS.Number_toString (JS.of_Z n)
                    = JS.decimal_digits (Z.to_N n))
       && (JS.truthy (JS.of_Z n) || (n =? 0))
       && ((n <? 1000)
           || (length (JS.decimal_digits (Z.to_N n)) =? 4)%nat))
    (below 10000) = true.
Proof. vm_compute. reflexivity. Qed.

Lemma Number_toString_integer n :
  0 <= n <= 9999 ->
  JS.Number_toString (JS.of_Z n) = JS.decimal_digits (Z.to_N n).
Proof.
  intros Hn. pose proof small_integers_checked as H.
  rewrite forallb_forall in H. specialize (H n (below_In 10000 n ltac:(lia))).
  apply andb_true_iff in H as [H _]. apply andb_true_iff in H as [H _].
  by apply bool_decide_eq_true in H.
Qed.

Lemma truthy_integer n : 1 <= n <= 9999 -> JS.truthy (JS.of_Z n) = true.
Proof.
  intros Hn. pose proof small_integers_checked as H.
  rewrite forallb_forall in H. specialize (H n (below_In 10000 n ltac:(lia))).
  apply andb_true_iff in H as [H _]. apply andb_true_iff in H as [_ H].
  apply orb_true_iff in H as [H|H]; [done | lia].
Qed.

Lemma four_digits n :
  1000 <= n <= 9999 -> length (JS.decimal_digits (Z.to_N n)) = 4%nat.
Proof.
  intros Hn. pose proof small_integers_checked as H.
  rewrite forallb_forall in H. specialize (H n (below_In 10000 n ltac:(lia))).
  apply andb_true_iff in H as [_ H].
  apply orb_true_iff in H as [H|H]; [lia | by apply Nat.eqb_eq].
Qed.

Lemma pad2_checked :
  forallb (fun n => bool_decide (DateUtils.pad2 (JS.of_Z n) = two_digits n))
    (below 100) = true.
Proof. vm_compute. reflexivity. Qed.

Lemma pad2_two_digits n :
  0 <= n <= 99 -> DateUtils.pad2 (JS.of_Z n) = two_digits n.
Proof.
  intros Hn. pose proof pad2_checked as H.
  rewrite forallb_forall in H. specialize (H n (below_In 100 n ltac:(lia))).
  by apply bool_decide_eq_true in H.
Qed.

(** X15. For a year from 0 to 9999 and a month, day, hour and minute from
    0 to 99, [toICSDate] is the year's numeral followed by month, day,
    "T", hour, minute on two digits each and "00".  The year is not
    padded: the timestamp has the fifteen characters of YYYYMMDDTHHMMSS
    exactly from the year 1000 on. *)
Theorem toICSDate_timestamp :
  forall y m d h min : Z,
    0 <= y <= 9999 -> 0 <= m <= 99 -> 0 <= d <= 99 ->
    0 <= h <= 99 -> 0 <= min <= 99 ->
    DateUtils.toICSDate (JS.of_Z y) (JS.of_Z m) (JS.of_Z d) (JS.of_Z h)
      (JS.of_Z min)
    = timestamp y m d h min
    /\ (1000 <= y -> length (timestamp y m d h min) = 15%nat)
    /\ (y < 1000 -> (length (timestamp y m d h min) < 15)%nat).
Proof.
  intros y m d h min Hy Hm Hd Hh Hmin. unfold DateUtils.toICSDate.
  rewrite Number_toString_integer, !pad2_two_digits by done.
  split; [reflexivity|]. unfold timestamp.
  rewrite !length_app. simpl. split; intros Hy'.
  - rewrite four_digits by lia. reflexivity.
  - assert (Hlen : (length (JS.decimal_digits (Z.to_N y)) < 4)%nat);
      [|lia].
    clear - Hy Hy'. assert (Hin := below_In 1000 y ltac:(lia)).
    assert (Hall : forallb
              (fun n => (length (JS.decimal_digits (Z.to_N n)) <? 4)%nat)
              (below 1000) = true) by (vm_compute; reflexivity).
    rewrite forallb_forall in Hall. by apply Nat.ltb_lt, Hall.
Qed.

Lemma toICSDate_timestamp_witness :
  DateUtils.toICSDate (JS.of_Z 2026) (JS.of_Z 2) (JS.of_Z 25) (JS.of_Z 6)
    (JS.of_Z 30)
  = lit "20260225T063000"
  /\ DateUtils.toICSDate (JS.of_Z 999) (JS.of_Z 2) (JS.of_Z 25) (JS.of_Z 6)
       (JS.of_Z 30)
     = lit "9990225T063000".
Proof.
  split.
  - by destruct (toICSDate_timestamp 2026 2 25 6 30) as [-> _]; [lia..|].
  - by destruct (toICSDate_timestamp 999 2 25 6 30) as [-> _]; [lia..|].
Defined.

End Calendar.
(** ** Numerals read by [Number] *)

Section Numerals.

Lemma digit_cases c :
  is_digit c = true -> In c [48; 49; 50; 51; 52; 53; 54; 55; 56; 57].
Proof.
  unfold is_digit, JS.in_range. rewrite andb_true_iff, !N.leb_le.
  simpl. lia.
Qed.

Ltac each_digit H :=
  apply digit_cases in H; simpl in H;
  repeat (destruct H as [<-|H]); [..|contradiction].

Lemma trimStart_digit c r :
  is_digit c = true -> JS.trimStart (c :: r) = c :: r.
Proof. intros Hc. each_digit Hc; reflexivity. Qed.

Lemma trim_numeral ds :
  forallb is_digit ds = true -> JS.trim ds = ds.
Proof.
  intros Hds. unfold JS.trim, JS.trimEnd.
  assert (Hstart : forall s, forallb is_digit s = true -> JS.trimStart s = s).
  { intros [|c r] Hs; [reflexivity|]. simpl in Hs.
    apply andb_true_iff in Hs as [Hc _]. by apply trimStart_digit. }
  rewrite (Hstart ds Hds), Hstart, rev_involutive; [reflexivity|].
  rewrite forallb_forall in *. intros c Hc. apply Hds. by apply in_rev.
Qed.

Lemma digit_value_digit c :
  is_digit c = true -> JS.digit_value 10 c = Some (c - 0x30).
Proof. intros Hc. each_digit Hc; reflexivity. Qed.

Lemma digits_numeral ds : forall acc n,
  forallb is_digit ds = true ->
  JS.digits 10 acc n ds
  = (fold_left (fun acc c => acc * 10 + (c - 0x30)) ds acc,
     (n + length ds)%nat, []).
Proof.
  induction ds as [|c ds IH]; intros acc n Hds; simpl.
  { by rewrite Nat.add_0_r. }
  simpl in Hds. apply andb_true_iff in Hds as [Hc Hds].
  rewrite digit_value_digit, IH by done. do 2 f_equal. lia.
Qed.

Lemma non_decimal_numeral c r :
  forallb is_digit (c :: r) = true -> JS.non_decimal (c :: r) = None.
Proof.
  simpl. rewrite andb_true_iff. intros [Hc Hr].
  each_digit Hc; try reflexivity.
  destruct r as [|p r]; [reflexivity|].
  simpl in Hr. apply andb_true_iff in Hr as [Hp _].
  each_digit Hp; reflexivity.
Qed.

Lemma of_Z_round_decimal v :
  JS.round_decimal false (Z.of_N v) 0 = JS.of_Z (Z.of_N v).
Proof.
  destruct v as [|p]; [reflexivity|]. simpl Z.of_N.
  unfold JS.round_decimal, JS.of_Z, binary_normalize.
  by rewrite Z.pow_0_r, Z.mul_1_r.
Qed.

(** [Number] of a string of digits is the number they write, leading
    zeros or not. *)
Lemma StringToNumber_numeral ds n :
  numeral ds n -> JS.StringToNumber ds = JS.of_Z n.
Proof.
  intros (Hne & Hds & <-). unfold JS.StringToNumber.
  rewrite trim_numeral by done. cbv zeta.
  destruct ds as [|c r]; [done|].
  assert (Hc : is_digit c = true).
  { simpl in Hds. by apply andb_true_iff in Hds as [Hc _]. }
  assert (Hrest :
    match JS.non_decimal (c :: r) with
    | Some v => v
    | None => JS.unsigned_decimal false (c :: r)
    end = JS.of_Z (numeral_value (c :: r))).
  { rewrite non_decimal_numeral by done. unfold JS.unsigned_decimal.
    unfold JS.str_eqb. rewrite bool_decide_eq_false_2.
    2:{ intros [= -> _]. discriminate Hc. }
    rewrite digits_numeral by done.
    cbn [Nat.add length Nat.eqb JS.exponent_part].
    change (Z.of_nat 0) with 0%Z. rewrite Z.sub_0_r.
    apply of_Z_round_decimal. }
  each_digit Hc; exact Hrest.
Qed.

End Numerals.

(** ** Well-formed records, end to end *)

Section WellFormed.

Local Open Scope Z_scope.

Lemma includes_numeral ds c :
  is_digit c = false -> forallb is_digit ds = true ->
  JS.includes ds [c] = false.
Proof.
  intros Hc. induction ds as [|x ds IH]; intros Hds; [reflexivity|].
  simpl in Hds. apply andb_true_iff in Hds as [Hx Hds].
  change (JS.includes (x :: ds) [c])
    with (((c =? x)%N && true) || JS.includes ds [c]).
  rewrite IH, andb_true_r, orb_false_r by done.
  apply N.eqb_neq. intros ->. congruence.
Qed.

Lemma split_scan_sep c a rest : forall cur,
  JS.includes a [c] = false ->
  JS.split_scan [c] 0 cur (a ++ c :: rest)
  = (rev cur ++ a) :: JS.split_scan [c] 0 [] rest.
Proof.
  induction a as [|x a IH]; intros cur Ha.
  - simpl. by rewrite N.eqb_refl, app_nil_r.
  - change (JS.includes (x :: a) [c])
      with (((c =? x)%N && true) || JS.includes a [c]) in Ha.
    apply orb_false_elim in Ha as [Hx Ha]. rewrite andb_true_r in Hx.
    simpl. rewrite Hx. simpl. rewrite IH by done. simpl.
    by rewrite <- app_assoc.
Qed.

(** A text "a/b/c" of numerals splits into its three numerals, and a text
    "a-b" into its two. *)
Lemma split_numerals3 a b c :
  forallb is_digit a = true -> forallb is_digit b = true ->
  forallb is_digit c = true ->
  JS.split (a ++ lit "/" ++ b ++ lit "/" ++ c) (lit "/") = [a; b; c].
Proof.
  intros Ha Hb Hc.
  change (JS.split (a ++ lit "/" ++ b ++ lit "/" ++ c) (lit "/"))
    with (JS.split_scan [47%N] 0 [] (a ++ 47%N :: b ++ 47%N :: c)).
  rewrite !split_scan_sep, split_scan_absent
    by (by apply includes_numeral).
  reflexivity.
Qed.

Lemma split_numerals2 a b :
  forallb is_digit a = true -> forallb is_digit b = true ->
  JS.split (a ++ lit "-" ++ b) (lit "-") = [a; b].
Proof.
  intros Ha Hb.
  change (JS.split (a ++ lit "-" ++ b) (lit "-"))
    with (JS.split_scan [45%N] 0 [] (a ++ 45%N :: b)).
  rewrite split_scan_sep, split_scan_absent by (by apply includes_numeral).
  reflexivity.
Qed.

Lemma clock_lookup i s e :
  In (i, s, e) period_clocks ->
  PERIOD_TIME !! JS.Number_toString (JS.of_Z i)
  = Some (mkPeriod s.1 s.2 e.1 e.2)
  /\ 1 <= i <= 12
  /\ 0 <= s.1 <= 99 /\ 0 <= s.2 <= 99 /\ 0 <= e.1 <= 99 /\ 0 <= e.2 <= 99.
Proof.
  intros H. simpl in H.
  repeat (destruct H as [[= <- <- <-]|H];
          [split; [vm_compute; reflexivity | simpl; lia]|]).
  contradiction.
Qed.

(** X16. For every record whose date is "d/m/y" and whose period range
    is "i-j", written with numerals (leading zeros or not), with day and
    month from 1 to 99, year from 1 to 9999 and [i], [j] periods of the
    table, the Mapper produces an event; it starts on that date at the
    start of period [i] and ends on that date at the end of period [j].
    The day and the month are not checked against the calendar. *)
Theorem toEvent_well_formed :
  forall (host : Host) (item : TMUScheduleItem) (w : World)
         (d m y i j : Z) (s1 e1 s2 e2 : Z * Z),
    well_formed item d m y i j ->
    1 <= d <= 99 -> 1 <= m <= 99 -> 1 <= y <= 9999 ->
    In (i, s1, e1) period_clocks ->
    In (j, s2, e2) period_clocks ->
    exists e,
      toEvent host item w = (Return (Some e), drawn 1 w)
      /\ start e = timestamp y m d s1.1 s1.2
      /\ end_ e = timestamp y m d e2.1 e2.2
      /\ location e = cleanRoom (RoomID item)
      /\ title e = CurriculumName item ++ lit " - " ++ cleanRoom (RoomID item).
Proof.
  intros host item w d m y i j s1 e1 s2 e2
    (dd & mm & yyyy & ps & pe & HDate & Hdd & Hmm & Hyyyy & HPeriod
     & Hps & Hpe) Hd Hm Hy Hi Hj.
  assert (Hdate : forall k,
    date_component item k = [JS.of_Z d; JS.of_Z m; JS.of_Z y] !! k).
  { intros k. unfold date_component. rewrite HDate.
    rewrite split_numerals3 by (by apply Hdd || by apply Hmm || by apply Hyyyy).
    cbn [List.map].
    by rewrite !(StringToNumber_numeral _ _ Hdd),
      !(StringToNumber_numeral _ _ Hmm), !(StringToNumber_numeral _ _ Hyyyy). }
  assert (Hperiod : forall k,
    period_component item k = [JS.of_Z i; JS.of_Z j] !! k).
  { intros k. unfold period_component. rewrite HPeriod.
    rewrite split_numerals2 by (by apply Hps || by apply Hpe).
    cbn [List.map].
    by rewrite !(StringToNumber_numeral _ _ Hps),
      !(StringToNumber_numeral _ _ Hpe). }
  destruct (clock_lookup _ _ _ Hi) as (Hst & _ & Hs11 & Hs12 & _ & _).
  destruct (clock_lookup _ _ _ Hj) as (Het & _ & _ & _ & He21 & He22).
  assert (Hl0 : period_lookup item 0 = Some (mkPeriod s1.1 s1.2 e1.1 e1.2)).
  { unfold period_lookup. by rewrite Hperiod. }
  assert (Hl1 : period_lookup item 1 = Some (mkPeriod s2.1 s2.2 e2.1 e2.2)).
  { unfold period_lookup. by rewrite Hperiod. }
  destruct (toEvent_cases host item w) as [[Hno _]|[_ (e & He & Hto)]].
  { exfalso. apply mappable_false_iff in Hno
      as [(k & Hk & Hfalsy)|(k & Hk & Hmiss)].
    - rewrite Hdate in Hfalsy.
      destruct k as [|[|[|k]]]; [..|lia]; simpl in Hfalsy;
        rewrite truthy_integer in Hfalsy by lia; discriminate.
    - destruct k as [|[|k]]; [congruence | congruence | lia]. }
  exists e. split; [exact Hto|].
  destruct He as (d' & m' & y' & st & et & room & Hd' & Hm' & Hy' & Hst'
                  & Het' & -> & _ & -> & -> & _ & -> & ->).
  rewrite Hdate in Hd', Hm', Hy'. simpl in Hd', Hm', Hy'.
  injection Hd' as <-. injection Hm' as <-. injection Hy' as <-.
  rewrite Hl0 in Hst'. rewrite Hl1 in Het'.
  injection Hst' as <-. injection Het' as <-.
  unfold mkPeriod. cbn [sh sm eh em].
  destruct (toICSDate_timestamp y m d s1.1 s1.2) as [-> _]; [lia..|].
  destruct (toICSDate_timestamp y m d e2.1 e2.2) as [-> _]; [lia..|].
  auto.
Qed.

Lemma toEvent_well_formed_witness :
  exists e,
    toEvent example_host (lesson (lit "2/3/2026")) World0
    = (Return (Some e), drawn 1 World0)
    /\ start e = lit "20260302T063000"
    /\ end_ e = lit "20260302T091000".
Proof.
  destruct (toEvent_well_formed example_host (lesson (lit "2/3/2026")) World0
              2 3 2026 1 3 (6, 30) (7, 20) (8, 20) (9, 10))
    as (e & Hto & Hs & He & _); try lia.
  - exists (lit "2"), (lit "3"), (lit "2026"), (lit "1"), (lit "3").
    repeat split; done.
  - simpl. auto.
  - simpl. auto.
  - exists e. rewrite Hs, He. auto.
Defined.

End WellFormed.
(** ** Period keys and schedule URLs *)

Section Keys.

Local Open Scope Z_scope.

(** X17. A period-table lookup succeeds exactly for the Numbers 1 to 12:
    [undefined], [NaN], zero, fractions and other integers all miss. *)
Theorem PERIOD_TIME_defined_iff :
  forall v : option spec_float,
    is_Some (PERIOD_TIME !! ToPropertyKey v)
    <-> exists i, 1 <= i <= 12 /\ v = Some (JS.of_Z i).
Proof.
  intros v. split.
  - intros [p Hp]. destruct v as [x|]; [|by vm_compute in Hp].
    apply PERIOD_TIME_lookup_number in Hp as (i & Hin & ->).
    exists i. split; [|done]. simpl in Hin.
    repeat (destruct Hin as [[= <- _]|Hin]; [lia|]). contradiction.
  - intros (i & Hi & ->). apply small_cases in Hi. simpl in Hi.
    repeat (destruct Hi as [<-|Hi]; [by vm_compute; eexists|]).
    contradiction.
Qed.

Lemma encodeURIComponent_digits n :
  TMUScheduleService.encodeURIComponent (JS.decimal_digits n)
  = JS.decimal_digits n.
Proof.
  unfold TMUScheduleService.encodeURIComponent, JS.decimal_digits.
  induction (N.to_uint n) as [|d IH|d IH|d IH|d IH|d IH|d IH|d IH|d IH|d IH
                              |d IH]; simpl; [done|..]; by rewrite IH.
Qed.

(** X18. For a week whose year, term and week number are integers from
    0 to 9999, the schedule URL is the API base followed by
    "/DrawingSchedules?namhoc=<year>&hocky=<term>&tuan=<week>" with the
    three numbers in decimal. *)
Theorem scheduleUrl_integers :
  forall term year n : Z,
    0 <= term <= 9999 -> 0 <= year <= 9999 -> 0 <= n <= 9999 ->
    TMUScheduleService.scheduleUrl (week term year n)
    = API_BASE ++ lit "/DrawingSchedules?namhoc="
      ++ JS.decimal_digits (Z.to_N year)
      ++ lit "&hocky=" ++ JS.decimal_digits (Z.to_N term)
      ++ lit "&tuan=" ++ JS.decimal_digits (Z.to_N n).
Proof.
  intros term year n Ht Hy Hn.
  unfold TMUScheduleService.scheduleUrl, week. cbn [TermID YearStudy Week].
  rewrite !Number_toString_integer, !encodeURIComponent_digits by done.
  by rewrite <- !app_assoc.
Qed.

Lemma scheduleUrl_integers_witness :
  TMUScheduleService.scheduleUrl (week 2 2025 27)
  = lit "https://tmuonlineapi.azurewebsites.net/api/student/DrawingSchedules?namhoc=2025&hocky=2&tuan=27".
Proof.
  rewrite (scheduleUrl_integers 2 2025 27) by lia. reflexivity.
Defined.

End Keys.

(** ** Padding *)

Lemma fill_cycle_zero k : forall cur,
  cur = [] \/ cur = [0x30] ->
  JS.fill_cycle k [0x30] cur = repeat 0x30 k.
Proof.
  induction k as [|k IH]; intros cur Hcur; [reflexivity|].
  destruct Hcur as [-> | ->]; simpl; f_equal; apply IH; auto.
Qed.

(** X19. [pad2] puts zeros in front of the text of a number to bring it
    to two characters and never cuts it: a text of two characters or
    more (a number from 10 on, a negative number, [NaN]) is left as it
    is. *)
Theorem pad2_never_truncates :
  forall n : spec_float,
    DateUtils.pad2 n
    = repeat 0x30 (2 - length (JS.Number_toString n)) ++ JS.Number_toString n
    /\ length (DateUtils.pad2 n)
       = Nat.max 2 (length (JS.Number_toString n)).
Proof.
  intros n. unfold DateUtils.pad2, JS.padStart.
  change (lit "0") with [0x30]. rewrite fill_cycle_zero by auto.
  split; [reflexivity|]. rewrite length_app, repeat_length. lia.
Qed.

(** ** The room *)

Lemma trimStart_suffix s :
  exists p, s = p ++ JS.trimStart s
            /\ forallb JS.isStrWhiteSpaceChar p = true.
Proof.
  induction s as [|c s (p & Hp & Hws)]; [by exists []|].
  simpl. destruct (JS.isStrWhiteSpaceChar c) eqn:Hc.
  - exists (c :: p). simpl. rewrite Hc, Hws. split; [by f_equal | done].
  - by exists [].
Qed.

Lemma trimStart_head s c r :
  JS.trimStart s = c :: r -> JS.isStrWhiteSpaceChar c = false.
Proof.
  induction s as [|x s IH]; simpl; [done|].
  destruct (JS.isStrWhiteSpaceChar x) eqn:Hx; [exact IH|].
  by intros [= <- _].
Qed.

Lemma trim_trimmed s : trimmed (JS.trim s).
Proof.
  unfold JS.trim, JS.trimEnd.
  set (t := JS.trimStart s).
  destruct (trimStart_suffix (rev t)) as (p & Hp & _).
  set (u := JS.trimStart (rev t)) in *.
  split.
  - intros c r Hcr.
    assert (Ht : t = rev u ++ rev p).
    { by rewrite <- rev_app_distr, <- Hp, rev_involutive. }
    rewrite Hcr in Ht. apply (trimStart_head s c (r ++ rev p)). by fold t.
  - intros r c Hrc.
    apply (trimStart_head (rev t) c (rev r)). fold u.
    rewrite <- (rev_involutive u), Hrc, rev_app_distr. reflexivity.
Qed.

Lemma split_scan_no_first_char sep0 sep a : forall cur rest,
  ~ In sep0 a ->
  JS.split_scan (sep0 :: sep) 0 cur (a ++ sep0 :: sep ++ rest)
  = (rev cur ++ a)
    :: JS.split_scan (sep0 :: sep) (length (sep0 :: sep) - 1) []
         (sep ++ rest).
Proof.
  induction a as [|x a IH]; intros cur rest Ha.
  - cbn [app JS.split_scan].
    assert (Hs : JS.startsWith (sep0 :: sep) (sep0 :: sep ++ rest) = true).
    { apply startsWith_spec. by exists rest. }
    rewrite Hs. by rewrite app_nil_r.
  - cbn [app JS.split_scan].
    assert (Hs : JS.startsWith (sep0 :: sep)
                   (x :: a ++ sep0 :: sep ++ rest) = false).
    { simpl. apply andb_false_iff. left. apply N.eqb_neq. intros ->.
      apply Ha. by left. }
    rewrite Hs, IH by (intros H; apply Ha; by right).
    simpl. by rewrite <- app_assoc.
Qed.

Lemma split_scan_without sep0 sep s : forall cur,
  JS.includes s (sep0 :: sep) = false ->
  JS.split_scan (sep0 :: sep) 0 cur s = [rev cur ++ s].
Proof.
  induction s as [|x s IH]; intros cur Hs.
  - simpl. by rewrite app_nil_r.
  - change (JS.includes (x :: s) (sep0 :: sep))
      with (JS.startsWith (sep0 :: sep) (x :: s)
            || JS.includes s (sep0 :: sep)) in Hs.
    apply orb_false_elim in Hs as [Hx Hs].
    cbn [JS.split_scan]. rewrite Hx, IH by done. simpl.
    by rewrite <- app_assoc.
Qed.

(** X20. The location that [cleanRoom] gives neither begins nor ends
    with white space.  Without the marker "</br>" it is the room field
    trimmed; with a marker, it is what precedes the first one, trimmed,
    and what follows is dropped, whatever it is (here for a first part
    without "<"). *)
Theorem cleanRoom_location :
  forall room : jsstring,
    trimmed (cleanRoom room)
    /\ (JS.includes room (lit "</br>") = false ->
        cleanRoom room = JS.trim room)
    /\ (forall first rest,
           room = first ++ lit "</br>" ++ rest ->
           ~ In 0x3C first ->
           cleanRoom room = JS.trim first).
Proof.
  intros room. split; [apply trim_trimmed|]. split.
  - intros Hno. unfold cleanRoom.
    change (JS.split room (lit "</br>"))
      with (JS.split_scan (0x3C :: lit "/br>") 0 [] room).
    by rewrite split_scan_without.
  - intros first rest -> Hfirst. unfold cleanRoom.
    change (JS.split (first ++ lit "</br>" ++ rest) (lit "</br>"))
      with (JS.split_scan (0x3C :: lit "/br>") 0 []
              (first ++ 0x3C :: lit "/br>" ++ rest)).
    by rewrite split_scan_no_first_char.
Qed.

Lemma cleanRoom_location_witness :
  cleanRoom (lit " P101 </br>B2</br>x") = lit "P101"
  /\ cleanRoom (lit " P101 ") = lit "P101".
Proof.
  destruct (cleanRoom_location (lit " P101 </br>B2</br>x"))
    as (_ & _ & Hfirst).
  destruct (cleanRoom_location (lit " P101 ")) as (_ & Hnone & _).
  split.
  - rewrite (Hfirst (lit " P101 ") (lit "B2</br>x") eq_refl); [reflexivity|].
    simpl. intros H. repeat (destruct H as [H|H]; [discriminate|]). done.
  - by rewrite Hnone.
Defined.


(** ** The start time shown *)




(** ** The identifiers of the events *)

Section Identifiers.

Variable host : Host.

Lemma toEvent_uid item w e w' :
  toEvent host item w = (Return (Some e), w') ->
  uid e = lit "tmu-" ++ uuid_of host (uid_calls w) /\ w' = drawn 1 w.
Proof.
  unfold toEvent.
  destruct (not_number _ || not_number _ || not_number _); [done|].
  destruct (PERIOD_TIME !! _) as [st|]; [|done].
  destruct (PERIOD_TIME !! _) as [et|]; [|done].
  unfold bind, IdFactory.uid, ret. by intros [= <- <-].
Qed.

Lemma map_eff_uids items : forall w,
  exists es,
    map_eff (toEvent host) items w
    = (Return es, drawn (length (omap id es)) w)
    /\ List.map uid (omap id es)
       = List.map (fun k => lit "tmu-" ++ uuid_of host k)
           (seq (uid_calls w) (length (omap id es))).
Proof.
  induction items as [|item items IH]; intros w.
  - exists []. simpl. by rewrite drawn_0.
  - simpl. unfold bind.
    destruct (toEvent_cases host item w)
      as [[_ Hto]|[_ (e & _ & Hto)]]; rewrite Hto.
    + destruct (IH w) as (es & -> & Hu). by exists (None :: es).
    + destruct (IH (drawn 1 w)) as (es & -> & Hu).
      exists (Some e :: es). simpl. rewrite drawn_drawn.
      replace (length (omap id es) + 1)%nat with (S (length (omap id es)))
        by lia.
      split; [done|]. f_equal; [by apply toEvent_uid in Hto as [-> _]|].
      exact Hu.
Qed.

(** X22. The identifiers of the events that [map] returns are "tmu-"
    followed by successive draws of the generator, one draw per event
    and none for a dropped record; so they are pairwise distinct whenever
    these draws are. *)
Theorem map_uids :
  forall (items : list TMUScheduleItem) (w : World),
    exists events,
      TMUScheduleToEventMapper.map host items w
      = (Return events, drawn (length events) w)
      /\ List.map uid events
         = List.map (fun k => lit "tmu-" ++ uuid_of host k)
             (seq (uid_calls w) (length events))
      /\ ((forall a b,
              (uid_calls w <= a < uid_calls w + length events)%nat ->
              (uid_calls w <= b < uid_calls w + length events)%nat ->
              uuid_of host a = uuid_of host b -> a = b) ->
          List.NoDup (List.map uid events)).
Proof.
  intros items w. destruct (map_eff_uids items w) as (es & Hes & Hu).
  exists (omap id es). unfold TMUScheduleToEventMapper.map, bind.
  rewrite Hes. split; [done|]. split; [exact Hu|].
  intros Hinj. rewrite Hu.
  apply List.NoDup_map_NoDup_ForallPairs; [|apply List.seq_NoDup].
  intros a b Ha Hb Heq. apply in_seq in Ha, Hb.
  apply Hinj; [lia | lia |]. by apply app_inv_head in Heq.
Qed.

Lemma map_eff_app {A B} (f : A -> Eff B) (l1 l2 : list A) : forall w,
  map_eff f (l1 ++ l2) w
  = match map_eff f l1 w with
    | (Return ys1, w1) =>
        match map_eff f l2 w1 with
        | (Return ys2, w2) => (Return (ys1 ++ ys2), w2)
        | (Throw e, w2) => (Throw e, w2)
        | (Pending, w2) => (Pending, w2)
        end
    | (Throw e, w1) => (Throw e, w1)
    | (Pending, w1) => (Pending, w1)
    end.
Proof.
  induction l1 as [|x l1 IH]; intros w; simpl.
  - by destruct (map_eff f l2 w) as [[| |] ?].
  - unfold bind. destruct (f x w) as [[y|e|] w0]; [|done..].
    rewrite IH. unfold ret.
    destruct (map_eff f l1 w0) as [[ys1|e|] w1]; [|done..].
    destruct (map_eff f l2 w1) as [[ys2|e|] w2]; reflexivity.
Qed.

(** X23. Mapping the records of two lists one after the other gives, put
    end to end, the events of mapping the two lists in one go: the events
    of a term are those of its weeks, in order. *)
Theorem map_app :
  forall (items1 items2 : list TMUScheduleItem) (w : World),
    exists events1 events2,
      TMUScheduleToEventMapper.map host items1 w
      = (Return events1, drawn (length events1) w)
      /\ TMUScheduleToEventMapper.map host items2 (drawn (length events1) w)
         = (Return events2,
            drawn (length events2) (drawn (length events1) w))
      /\ TMUScheduleToEventMapper.map host (items1 ++ items2) w
         = (Return (events1 ++ events2),
            drawn (length events2) (drawn (length events1) w)).
Proof.
  intros items1 items2 w.
  destruct (map_eff_toEvent host items1 w) as (es1 & H1 & _).
  destruct (map_eff_toEvent host items2 (drawn (length (omap id es1)) w))
    as (es2 & H2 & _).
  exists (omap id es1), (omap id es2).
  unfold TMUScheduleToEventMapper.map, bind.
  rewrite map_eff_app, H1, H2. unfold ret. by rewrite omap_app.
Qed.

End Identifiers.

Lemma map_uids_witness :
  List.NoDup
    (List.map uid
       match TMUScheduleToEventMapper.map example_host
               [lesson (lit "02/03/2026"); lesson (lit "00/03/2026");
                lesson (lit "16/03/2026")] World0 with
       | (Return events, _) => events
       | _ => []
       end).
Proof.
  destruct (map_uids example_host
              [lesson (lit "02/03/2026"); lesson (lit "00/03/2026");
               lesson (lit "16/03/2026")] World0) as (events & -> & _ & Hnodup).
  apply Hnodup. intros a b _ _ H.
  change (lit "uuid-" ++ JS.decimal_digits (N.of_nat a)
          = lit "uuid-" ++ JS.decimal_digits (N.of_nat b)) in H.
  apply app_inv_head in H.
  by apply decimal_digits_inj, Nat2N.inj in H.
Defined.

(** ** The export button *)

Lemma exportButton_hasClass sample :
  hasClass (lit "tmu-export-btn") (exportButton sample) = true.
Proof.
  unfold hasClass, exportButton, classList_add. cbn [classList].
  apply bool_decide_eq_true. case_bool_decide; [done|].
  apply elem_of_app. right. by apply list_elem_of_singleton.
Qed.

(** X24. [addButtonIfPossible] adds the export button at most once.
    On a page whose container has a button and no element of class
    "tmu-export-btn", it appends one element: a copy of the first button
    with that class added, the text "Export", a left margin of 10px and
    the click that runs the export.  On any other page (no container, no
    button to copy, or the class already there) it changes nothing; so
    running it again, as the mutation observer does after each change of
    the page, the one it made itself included, changes nothing more. *)
Theorem addButtonIfPossible_once :
  forall page : option (list Element),
    addButtonIfPossible (addButtonIfPossible page) = addButtonIfPossible page
    /\ (forall container sample,
           page = Some container ->
           existsb (hasClass (lit "tmu-export-btn")) container = false ->
           List.find isButton container = Some sample ->
           addButtonIfPossible page
           = Some (container ++ [exportButton sample])
           /\ isButton (exportButton sample) = true
           /\ hasClass (lit "tmu-export-btn") (exportButton sample) = true
           /\ textContent (exportButton sample) = lit "Export"
           /\ clickExports (exportButton sample) = true
           /\ forall name,
                hasClass name sample = true ->
                hasClass name (exportButton sample) = true)
    /\ (page = None
        \/ (exists container,
               page = Some container
               /\ (existsb (hasClass (lit "tmu-export-btn")) container = true
                   \/ List.find isButton container = None)) ->
        addButtonIfPossible page = page).
Proof.
  intros page. split; [|split].
  - destruct page as [container|]; [|done].
    unfold addButtonIfPossible at 2.
    destruct (existsb _ container) eqn:Hex.
    { unfold addButtonIfPossible. by rewrite Hex. }
    destruct (List.find isButton container) as [sample|] eqn:Hfind.
    2:{ unfold addButtonIfPossible. by rewrite Hex, Hfind. }
    unfold addButtonIfPossible.
    rewrite existsb_app, !Hex, Hfind. cbn [existsb].
    by rewrite exportButton_hasClass.
  - intros container sample -> Hex Hfind. unfold addButtonIfPossible.
    rewrite Hex, Hfind.
    split; [done|]. split; [by apply find_some in Hfind as [_ ?]|].
    split; [apply exportButton_hasClass|]. split; [done|]. split; [done|].
    intros name. unfold hasClass, exportButton, classList_add.
    cbn [classList]. rewrite !bool_decide_eq_true. intros Hin.
    case_bool_decide; [done|]. apply elem_of_app. by left.
  - intros [->|(container & -> & [Hex|Hfind])]; unfold addButtonIfPossible;
      [done| |].
    + by rewrite Hex.
    + rewrite Hfind. by destruct (existsb _ container).
Qed.

Lemma addButtonIfPossible_once_witness :
  addButtonIfPossible (Some [host_caption; host_button])
  = Some [host_caption; host_button; exportButton host_button]
  /\ addButtonIfPossible
       (Some [host_caption; host_button; exportButton host_button])
     = Some [host_caption; host_button; exportButton host_button]
  /\ addButtonIfPossible (Some [host_caption]) = Some [host_caption].
Proof.
  destruct (addButtonIfPossible_once (Some [host_caption; host_button]))
    as (Hidem & Hadd & _).
  destruct (Hadd [host_caption; host_button] host_button eq_refl eq_refl
              eq_refl) as [Hpage _].
  destruct (addButtonIfPossible_once (Some [host_caption]))
    as (_ & _ & Hsame).
  split; [exact Hpage|]. split.
  - rewrite Hpage in Hidem. exact Hidem.
  - apply Hsame. right. exists [host_caption]. auto.
Defined.
